(** * Ellie: the navigation coordinator of the floor-plan frontend

    A shallow embedding of [frontend/services/navigationService.ts],
    [frontend/constants.ts], [frontend/types.ts] and of the location and
    path-request handlers of [frontend/App.tsx].

    Numbers.  A JavaScript [number] is read as a real number: [R] with its
    exact field operations and [sqrt].  There is no NaN and no infinity in
    this reading, so [Infinity] is modelled by an explicit [option] and the
    [isNaN] test of [mapPixelToGeo] never fires.  Rounding of IEEE doubles
    is outside the model.

    The component.  [App] is a React function component: a handler reads the
    state of the render it closes over and calls setters, which take effect
    together at the next render.  A handler is therefore a function from the
    rendered state to the list of calls it makes, and [render] applies them.
    The asynchronous [fetchAiPathAndInstructions] is split at its [await].
    Events are map taps, elevator taps, location fixes, stopping the
    navigation and completions of the backend call; uploading a plan, which
    the page disables while a request is pending, is not an event here.

    The repository holds two copies of [App.tsx].  They agree on every handler
    and differ in how [fetchAiPathAndInstructions] validates the response and
    in the first line of its fallback text; [Revision] selects the copy. *)

From Stdlib Require Import Reals Lra List String Bool Arith Lia Permutation Classical.
From Stdlib Require Import ZArith Ascii DecimalNat DecimalString.
Import ListNotations.

Local Open Scope R_scope.

(** ** Comparisons of numbers as the code writes them *)

Definition Rltb (a b : R) : bool := if Rlt_dec a b then true else false.
Definition Rgtb (a b : R) : bool := Rltb b a.
Definition Reqb (a b : R) : bool := if Req_dec_T a b then true else false.

(** ** types.ts *)

Record Point : Type := mkPoint { x : R; y : R }.

Record GeoPoint : Type := mkGeoPoint { latitude : R; longitude : R }.

Record Elevator : Type := mkElevator {
  id : string;
  name : string;
  location : Point;
  floor : string
}.

Record Dimensions : Type := mkDimensions { width : R; height : R }.

Record FloorPlan : Type := mkFloorPlan {
  plan_id : string;
  plan_name : string;
  imageUrl : string;
  elevators : list Elevator;
  dimensions : Dimensions
}.

Record GeoBounds : Type := mkGeoBounds {
  northWest : GeoPoint;
  southEast : GeoPoint
}.

(** ** constants.ts *)

Definition FLOOR_PLAN_GEO_BOUNDS : GeoBounds :=
  {| northWest := {| latitude := 340529 / 10000; longitude := - (1182445 / 10000) |};
     southEast := {| latitude := 340520 / 10000; longitude := - (1182425 / 10000) |} |}.

Definition MARKER_SIZE : R := 20.
Definition ARRIVAL_THRESHOLD_PIXELS : R := 25.

(** ** navigationService.ts *)

Definition calculateDistance (p1 p2 : Point) : R :=
  sqrt ((x p1 - x p2) ^ 2 + (y p1 - y p2) ^ 2).

(** The loop state of [findNearestElevator]: the candidate found so far and
    [minDistance], where [None] stands for [Infinity]. *)
Definition below (d : R) (minDistance : option R) : bool :=
  match minDistance with
  | None => true
  | Some m => Rltb d m
  end.

Definition nearest_step (userLocation : Point)
    (acc : option Elevator * option R) (elevator : Elevator)
    : option Elevator * option R :=
  let distance := calculateDistance userLocation (location elevator) in
  if below distance (snd acc) then (Some elevator, Some distance) else acc.

Definition nearest_loop (userLocation : Point) (elevators : list Elevator)
    (acc : option Elevator * option R) : option Elevator * option R :=
  fold_left (nearest_step userLocation) elevators acc.

Definition findNearestElevator (userLocation : Point) (elevators : list Elevator)
    : option Elevator :=
  match elevators with
  | [] => None
  | _ => fst (nearest_loop userLocation elevators (None, None))
  end.

Definition calculatePath (start finish : Point) : list Point := [start; finish].

Definition mapRange (value inMin inMax outMin outMax : R) : R :=
  if Reqb inMin inMax then (outMin + outMax) / 2
  else ((value - inMin) * (outMax - outMin)) / (inMax - inMin) + outMin.

Definition mapGeoToPixel (geoPoint : GeoPoint) (bounds : GeoBounds)
    (imageDimensions : Dimensions) : option Point :=
  let nw := northWest bounds in
  let se := southEast bounds in
  let isLatOutOfBounds :=
    Rgtb (latitude geoPoint) (latitude nw) || Rltb (latitude geoPoint) (latitude se) in
  let isLonOutOfBounds :=
    Rltb (longitude geoPoint) (longitude nw) || Rgtb (longitude geoPoint) (longitude se) in
  if isLatOutOfBounds || isLonOutOfBounds then None
  else
    let px := mapRange (longitude geoPoint) (longitude nw) (longitude se)
                       0 (width imageDimensions) in
    let py := mapRange (latitude geoPoint) (latitude nw) (latitude se)
                       0 (height imageDimensions) in
    let clampedX := Rmax 0 (Rmin px (width imageDimensions)) in
    let clampedY := Rmax 0 (Rmin py (height imageDimensions)) in
    Some {| x := clampedX; y := clampedY |}.

(** [isNaN] is false on every real, so the [null] branch after it is dead in
    this reading and the function always returns a point. *)
Definition mapPixelToGeo (pixelPoint : Point) (bounds : GeoBounds)
    (imageDimensions : Dimensions) : option GeoPoint :=
  let lon := mapRange (x pixelPoint) 0 (width imageDimensions)
                      (longitude (northWest bounds)) (longitude (southEast bounds)) in
  let lat := mapRange (y pixelPoint) 0 (height imageDimensions)
                      (latitude (northWest bounds)) (latitude (southEast bounds)) in
  Some {| latitude := lat; longitude := lon |}.

(** ** App.tsx: the component state

    One field per [useState] hook of [App].  [gpsWatchId] is the handle that
    [navigator.geolocation.watchPosition] returned, [None] for [null]. *)

Record State : Type := mkState {
  currentFloorPlan : option FloorPlan;
  userLocation : option Point;
  userGeoLocation : option GeoPoint;
  gpsStatus : string;
  isGpsDerived : bool;
  isAnalyzingPlan : bool;
  nearestElevator : option Elevator;
  selectedElevator : option Elevator;
  path : option (list Point);
  aiPathInstructions : option (list string);
  isFetchingAiPath : bool;
  isNavigatingWithGps : bool;
  targetElevatorGps : option GeoPoint;
  gpsWatchId : option nat
}.

(** What a handler does: state setter calls, in program order, and the calls
    that leave the component ([clearWatch], the backend request, the console).
    A handler reads the state of the render it was created in and its setter
    calls are committed together afterwards, so a handler is a function from
    the rendered state to a list of actions. *)
Inductive Action : Type :=
| setUserLocation (v : option Point)
| setUserGeoLocation (v : option GeoPoint)
| setGpsStatus (v : string)
| setIsGpsDerived (v : bool)
| setNearestElevator (v : option Elevator)
| setSelectedElevator (v : option Elevator)
| setPath (v : option (list Point))
| setAiPathInstructions (v : option (list string))
| setIsFetchingAiPath (v : bool)
| setIsNavigatingWithGps (v : bool)
| setTargetElevatorGps (v : option GeoPoint)
| setGpsWatchId (v : option nat)
| clearWatch (watchId : nat)
| generateContent (start : Point) (target : Elevator) (plan : FloorPlan)
| consoleError.

Definition commit (s : State) (a : Action) : State :=
  match a with
  | setUserLocation v =>
      mkState (currentFloorPlan s) v (userGeoLocation s) (gpsStatus s) (isGpsDerived s)
        (isAnalyzingPlan s) (nearestElevator s) (selectedElevator s) (path s)
        (aiPathInstructions s) (isFetchingAiPath s) (isNavigatingWithGps s)
        (targetElevatorGps s) (gpsWatchId s)
  | setUserGeoLocation v =>
      mkState (currentFloorPlan s) (userLocation s) v (gpsStatus s) (isGpsDerived s)
        (isAnalyzingPlan s) (nearestElevator s) (selectedElevator s) (path s)
        (aiPathInstructions s) (isFetchingAiPath s) (isNavigatingWithGps s)
        (targetElevatorGps s) (gpsWatchId s)
  | setGpsStatus v =>
      mkState (currentFloorPlan s) (userLocation s) (userGeoLocation s) v (isGpsDerived s)
        (isAnalyzingPlan s) (nearestElevator s) (selectedElevator s) (path s)
        (aiPathInstructions s) (isFetchingAiPath s) (isNavigatingWithGps s)
        (targetElevatorGps s) (gpsWatchId s)
  | setIsGpsDerived v =>
      mkState (currentFloorPlan s) (userLocation s) (userGeoLocation s) (gpsStatus s) v
        (isAnalyzingPlan s) (nearestElevator s) (selectedElevator s) (path s)
        (aiPathInstructions s) (isFetchingAiPath s) (isNavigatingWithGps s)
        (targetElevatorGps s) (gpsWatchId s)
  | setNearestElevator v =>
      mkState (currentFloorPlan s) (userLocation s) (userGeoLocation s) (gpsStatus s)
        (isGpsDerived s) (isAnalyzingPlan s) v (selectedElevator s) (path s)
        (aiPathInstructions s) (isFetchingAiPath s) (isNavigatingWithGps s)
        (targetElevatorGps s) (gpsWatchId s)
  | setSelectedElevator v =>
      mkState (currentFloorPlan s) (userLocation s) (userGeoLocation s) (gpsStatus s)
        (isGpsDerived s) (isAnalyzingPlan s) (nearestElevator s) v (path s)
        (aiPathInstructions s) (isFetchingAiPath s) (isNavigatingWithGps s)
        (targetElevatorGps s) (gpsWatchId s)
  | setPath v =>
      mkState (currentFloorPlan s) (userLocation s) (userGeoLocation s) (gpsStatus s)
        (isGpsDerived s) (isAnalyzingPlan s) (nearestElevator s) (selectedElevator s) v
        (aiPathInstructions s) (isFetchingAiPath s) (isNavigatingWithGps s)
        (targetElevatorGps s) (gpsWatchId s)
  | setAiPathInstructions v =>
      mkState (currentFloorPlan s) (userLocation s) (userGeoLocation s) (gpsStatus s)
        (isGpsDerived s) (isAnalyzingPlan s) (nearestElevator s) (selectedElevator s)
        (path s) v (isFetchingAiPath s) (isNavigatingWithGps s)
        (targetElevatorGps s) (gpsWatchId s)
  | setIsFetchingAiPath v =>
      mkState (currentFloorPlan s) (userLocation s) (userGeoLocation s) (gpsStatus s)
        (isGpsDerived s) (isAnalyzingPlan s) (nearestElevator s) (selectedElevator s)
        (path s) (aiPathInstructions s) v (isNavigatingWithGps s)
        (targetElevatorGps s) (gpsWatchId s)
  | setIsNavigatingWithGps v =>
      mkState (currentFloorPlan s) (userLocation s) (userGeoLocation s) (gpsStatus s)
        (isGpsDerived s) (isAnalyzingPlan s) (nearestElevator s) (selectedElevator s)
        (path s) (aiPathInstructions s) (isFetchingAiPath s) v
        (targetElevatorGps s) (gpsWatchId s)
  | setTargetElevatorGps v =>
      mkState (currentFloorPlan s) (userLocation s) (userGeoLocation s) (gpsStatus s)
        (isGpsDerived s) (isAnalyzingPlan s) (nearestElevator s) (selectedElevator s)
        (path s) (aiPathInstructions s) (isFetchingAiPath s) (isNavigatingWithGps s)
        v (gpsWatchId s)
  | setGpsWatchId v =>
      mkState (currentFloorPlan s) (userLocation s) (userGeoLocation s) (gpsStatus s)
        (isGpsDerived s) (isAnalyzingPlan s) (nearestElevator s) (selectedElevator s)
        (path s) (aiPathInstructions s) (isFetchingAiPath s) (isNavigatingWithGps s)
        (targetElevatorGps s) v
  | clearWatch _ | generateContent _ _ _ | consoleError => s
  end.

(** The state of the next render: the setter calls applied in order. *)
Definition render (s : State) (acts : list Action) : State :=
  fold_left commit acts s.

(** What the component is run with: whether the module-level [ai] client was
    constructed, the number formatting of [toFixed(4)], and which of the two
    copies of [App.tsx] in the repository is meant (they differ in
    [fetchAiPathAndInstructions] only). *)
Inductive Revision : Type := FirstCopy | SecondCopy.

Record Env : Type := mkEnv {
  ai : bool;
  toFixed4 : R -> string;
  revision : Revision
}.

(** JavaScript truthiness of a string and of an optional string argument. *)
Definition truthy (s : string) : bool :=
  match s with
  | EmptyString => false
  | String _ _ => true
  end.

Definition given (message : option string) : option string :=
  match message with
  | Some m => if truthy m then Some m else None
  | None => None
  end.

Definition initialAppStatus : string := "Please upload a floor plan to get started.".

(** Assignment [a[i] = v] on an array, for [i <= a.length] (at [i = a.length]
    it appends, as JavaScript does); the code never assigns further out. *)
Definition array_set {A : Type} (a : list A) (i : nat) (v : A) : list A :=
  firstn i a ++ v :: skipn (S i) a.

Definition stopGpsNavigation (s : State) (message : option string) : list Action :=
  [setIsNavigatingWithGps false]
  ++ match gpsWatchId s with
     | Some w => [clearWatch w; setGpsWatchId None]
     | None => []
     end
  ++ [setGpsStatus
        match given message with
        | Some m => m
        | None =>
            match selectedElevator s with
            | Some e => "GPS navigation to " ++ name e ++ " cancelled."
            | None =>
                match currentFloorPlan s with
                | Some _ => "GPS navigation stopped. Click map or an elevator to restart."
                | None => initialAppStatus
                end
            end
        end%string].

(** *** fetchAiPathAndInstructions

    An [async] function.  [fetch_begin] is what runs inside the caller, up to
    the [await] on the backend call; [fetch_settle] is what runs when that
    promise settles and the response text has been parsed. *)

Record AiPathResponse : Type := mkAiPathResponse {
  path_coordinates : option (list Point);
  step_by_step_instructions : option (list string)
}.
(* [path_coordinates = None]: absent or [null]; [step_by_step_instructions =
   None]: [Array.isArray] is false. *)

Inductive BackendOutcome : Type :=
| Rejected (reason : string)
| Unparseable (text : string)
| Parsed (aiResponse : AiPathResponse).
(* [Rejected]: the promise of [generateContent] rejects (transport error,
   timeout); [Unparseable]: [JSON.parse] throws on the response text. *)

Inductive Completion : Type :=
| Normal (acts : list Action)
| Throw (message : string).

Definition fetch_begin (env : Env) (currentUserLocation : Point)
    (targetElevator : Elevator) (plan : FloorPlan) : list Action :=
  if negb (ai env) || negb (truthy (imageUrl plan)) then
    [ setGpsStatus "AI pathfinding unavailable (AI client or image missing). Showing straight line.";
      setPath (Some (calculatePath currentUserLocation (location targetElevator)));
      setAiPathInstructions (Some ["AI pathfinding is currently unavailable."%string]) ]
  else
    [ setIsFetchingAiPath true;
      setAiPathInstructions None;
      setPath None;
      setGpsStatus ("AI is planning your route to " ++ name targetElevator ++ "...")%string;
      generateContent currentUserLocation targetElevator plan ].

Definition validatedPath (coords : list Point) (currentUserLocation : Point)
    (targetElevator : Elevator) : list Point :=
  let v := array_set coords 0 currentUserLocation in
  array_set v (List.length v - 1) (location targetElevator).

Definition accept (coords : list Point) (instructions : list string)
    (currentUserLocation : Point) (targetElevator : Elevator) : list Action :=
  [ setPath (Some (validatedPath coords currentUserLocation targetElevator));
    setAiPathInstructions (Some instructions);
    setGpsStatus ("AI path to " ++ name targetElevator
                  ++ " generated. Follow instructions.")%string ].

Definition try_body (env : Env) (currentUserLocation : Point)
    (targetElevator : Elevator) (o : BackendOutcome) : Completion :=
  match o with
  | Rejected reason => Throw reason
  | Unparseable _ => Throw "SyntaxError"
  | Parsed aiResponse =>
      match revision env with
      | FirstCopy =>
          match path_coordinates aiResponse, step_by_step_instructions aiResponse with
          | Some coords, Some instructions =>
              if (2 <=? List.length coords)%nat && (0 <? List.length instructions)%nat then
                Normal (accept coords instructions currentUserLocation targetElevator)
              else Throw "AI returned invalid path or instructions."
          | _, _ => Throw "AI returned invalid path or instructions."
          end
      | SecondCopy =>
          match path_coordinates aiResponse, step_by_step_instructions aiResponse with
          | Some coords, Some instructions =>
              if (2 <=? List.length coords)%nat && (0 <? List.length instructions)%nat then
                Normal (accept coords instructions currentUserLocation targetElevator)
              else
                Normal
                  [ setGpsStatus ("AI could not determine a multi-segment path for "
                                  ++ name targetElevator ++ ". Showing straight line.")%string;
                    setPath (Some (calculatePath currentUserLocation
                                     (location targetElevator)));
                    setAiPathInstructions
                      (Some (if (0 <? List.length instructions)%nat then instructions
                             else [ "AI was unable to determine a detailed path.";
                                    "A straight line to the elevator is shown on the map."
                                  ]%string)) ]
          | _, _ => Throw "AI returned improperly structured path or instructions."
          end
      end
  end.

Definition catch_instructions (env : Env) : list string :=
  [ match revision env with
    | FirstCopy => "AI was unable to determine a detailed path."
    | SecondCopy => "AI pathfinding system encountered an error."
    end;
    "A straight line to the elevator is shown on the map.";
    "Please use visual cues on the floor plan to navigate." ]%string.

Definition catch_block (env : Env) (currentUserLocation : Point)
    (targetElevator : Elevator) : list Action :=
  [ consoleError;
    setGpsStatus ("AI pathfinding failed for " ++ name targetElevator
                  ++ ". Showing straight line.")%string;
    setPath (Some (calculatePath currentUserLocation (location targetElevator)));
    setAiPathInstructions (Some (catch_instructions env)) ].

Definition finally_block : list Action := [setIsFetchingAiPath false].

Definition fetch_settle (env : Env) (currentUserLocation : Point)
    (targetElevator : Elevator) (o : BackendOutcome) : list Action :=
  match try_body env currentUserLocation targetElevator o with
  | Normal acts => acts
  | Throw _ => catch_block env currentUserLocation targetElevator
  end
  ++ finally_block.

(** *** processGpsLocation *)

Definition show_geo (env : Env) (geoPoint : GeoPoint) : string :=
  ("(" ++ toFixed4 env (latitude geoPoint) ++ ", "
       ++ toFixed4 env (longitude geoPoint) ++ ")")%string.

Definition nonempty {A : Type} (a : option (list A)) : bool :=
  match a with
  | Some (_ :: _) => true
  | _ => false
  end.

Definition is_some {A : Type} (a : option A) : bool :=
  match a with
  | Some _ => true
  | None => false
  end.

Definition moved_far (pixelLocation : Point) (oldUserLocation : option Point) : bool :=
  match oldUserLocation with
  | None => true
  | Some old => Rgtb (calculateDistance pixelLocation old) (MARKER_SIZE * 2)
  end.

Definition slide_start (p : option (list Point)) (pixelLocation : Point) : list Action :=
  match p with
  | Some updatedAiPath => [setPath (Some (array_set updatedAiPath 0 pixelLocation))]
  | None => []
  end.

(** The branch taken when the fix projects onto the plan: the actions and the
    status text that the closing [setGpsStatus(status)] reports. *)
Definition located (env : Env) (s : State) (plan : FloorPlan) (geoPoint : GeoPoint)
    (contextMessage : option string) (pixelLocation : Point)
    : list Action * string :=
  let oldUserLocation := userLocation s in
  let status :=
    (match given contextMessage with
     | Some m => m
     | None => "GPS Updated: " ++ show_geo env geoPoint ++ ". Mapped to plan."
     end ++ " (Note: GPS mapping is approximate for uploaded plans.)")%string in
  match selectedElevator s with
  | Some sel =>
      if isNavigatingWithGps s then
        let distanceToTarget := calculateDistance pixelLocation (location sel) in
        if Rltb distanceToTarget ARRIVAL_THRESHOLD_PIXELS then
          let status := ("Arrived at " ++ name sel ++ "!")%string in
          (stopGpsNavigation s (Some status) ++ [setPath None], status)
        else
          let status :=
            ("Navigating to " ++ name sel ++ "... User location updated by GPS.")%string in
          (if is_some (aiPathInstructions s) && nonempty (path s) then
             slide_start (path s) pixelLocation
           else if negb (is_some (aiPathInstructions s)) && negb (isFetchingAiPath s)
                   && moved_far pixelLocation oldUserLocation then
             fetch_begin env pixelLocation sel plan
           else if negb (isFetchingAiPath s) then
             [setPath (Some (calculatePath pixelLocation (location sel)))]
           else [],
           status)
      else if negb (isFetchingAiPath s) then
        (fetch_begin env pixelLocation sel plan, status)
      else ([], status)
  | None =>
      if negb (isFetchingAiPath s) then
        let nearest := findNearestElevator pixelLocation (elevators plan) in
        (setNearestElevator nearest
         :: match nearest with
            | Some n => [setPath (Some (calculatePath pixelLocation (location n)))]
            | None => []
            end,
         status)
      else ([], status)
  end.

Definition outside_status (env : Env) (s : State) (geoPoint : GeoPoint) : string :=
  match selectedElevator s with
  | Some sel =>
      if isNavigatingWithGps s then
        ("Navigating to " ++ name sel ++ ": User appears outside mapped area.")%string
      else
        ("GPS: " ++ show_geo env geoPoint
         ++ ". Your location appears outside the mapped area of this plan.")%string
  | None =>
      ("GPS: " ++ show_geo env geoPoint
       ++ ". Your location appears outside the mapped area of this plan.")%string
  end.

Definition processGpsLocation (env : Env) (s : State) (geoPoint : GeoPoint)
    (contextMessage : option string) : list Action :=
  match currentFloorPlan s with
  | None => [setGpsStatus "Cannot process GPS location: Floor plan not fully loaded."]
  | Some plan =>
      if Reqb (width (dimensions plan)) 0 then
        [setGpsStatus "Cannot process GPS location: Floor plan not fully loaded."]
      else
        setUserGeoLocation (Some geoPoint)
        :: match mapGeoToPixel geoPoint FLOOR_PLAN_GEO_BOUNDS (dimensions plan) with
           | Some pixelLocation =>
               [setUserLocation (Some pixelLocation); setIsGpsDerived true]
               ++ fst (located env s plan geoPoint contextMessage pixelLocation)
               ++ [setGpsStatus (snd (located env s plan geoPoint contextMessage
                                        pixelLocation))]
           | None =>
               [setIsGpsDerived false; setGpsStatus (outside_status env s geoPoint)]
           end
  end.

(** *** handleManualMapClick and handleElevatorClick *)

Definition handleManualMapClick (env : Env) (s : State) (point : Point) : list Action :=
  match currentFloorPlan s with
  | None => []
  | Some plan =>
      if isAnalyzingPlan s || isFetchingAiPath s then []
      else
        stopGpsNavigation s (Some "Manual location set. GPS navigation stopped."%string)
        ++ [setUserLocation (Some point); setIsGpsDerived false; setAiPathInstructions None]
        ++ match findNearestElevator point (elevators plan) with
           | Some nearest =>
               [setSelectedElevator (Some nearest)]
               ++ fetch_begin env point nearest plan
               ++ [setTargetElevatorGps
                     (mapPixelToGeo (location nearest) FLOOR_PLAN_GEO_BOUNDS
                        (dimensions plan));
                   setIsNavigatingWithGps true]
           | None =>
               [ setSelectedElevator None;
                 setPath None;
                 setTargetElevatorGps None;
                 setGpsStatus
                   "Location set manually. No elevators found or defined for this plan." ]
           end
  end.

Definition targeting_status (env : Env) (elevator : Elevator)
    (elevGps : option GeoPoint) : string :=
  ("Targeting " ++ name elevator ++ ". "
   ++ match elevGps with
      | Some g => "(Est. GPS: " ++ toFixed4 env (latitude g) ++ ", "
                  ++ toFixed4 env (longitude g) ++ ") "
                  ++ "(Elevator GPS is speculative for uploaded plans). "
      | None => ""
      end
   ++ "Set your location (click map) to start navigation and get AI path.")%string.

Definition handleElevatorClick (env : Env) (s : State) (elevatorId : string)
    : list Action :=
  match currentFloorPlan s with
  | None => []
  | Some plan =>
      if isAnalyzingPlan s
         || (List.length (elevators plan) =? 0)%nat
         || isFetchingAiPath s then []
      else
        match find (fun e => String.eqb (id e) elevatorId) (elevators plan) with
        | Some elevator =>
            let elevGps :=
              mapPixelToGeo (location elevator) FLOOR_PLAN_GEO_BOUNDS (dimensions plan) in
            stopGpsNavigation s None
            ++ [setSelectedElevator (Some elevator); setAiPathInstructions None;
                setTargetElevatorGps elevGps]
            ++ match userLocation s with
               | Some u =>
                   fetch_begin env u elevator plan ++ [setIsNavigatingWithGps true]
               | None =>
                   [setPath None; setGpsStatus (targeting_status env elevator elevGps)]
               end
        | None => []
        end
  end.

(** *** The effect that keeps the nearest elevator and the fallback line

    It runs after a render in which one of its dependencies changed. *)
Definition nearest_effect_deps (s : State) :=
  (userLocation s, currentFloorPlan s, selectedElevator s, isFetchingAiPath s,
   aiPathInstructions s).

Definition nearestEffect (s : State) : list Action :=
  match userLocation s, currentFloorPlan s with
  | Some u, Some plan =>
      match selectedElevator s with
      | None =>
          let foundNearest := findNearestElevator u (elevators plan) in
          setNearestElevator foundNearest
          :: match foundNearest with
             | Some n =>
                 if negb (isFetchingAiPath s) && negb (is_some (aiPathInstructions s))
                 then [setPath (Some (calculatePath u (location n)))]
                 else []
             | None => if negb (isFetchingAiPath s) then [setPath None] else []
             end
      | Some sel =>
          setNearestElevator None
          :: (if negb (isFetchingAiPath s) && negb (is_some (aiPathInstructions s))
              then [setPath (Some (calculatePath u (location sel)))]
              else [])
      end
  | _, _ =>
      setNearestElevator None
      :: (if negb (isFetchingAiPath s) then [setPath None] else [])
  end.

(** ** The coordinator as a transition system

    The component state together with the backend requests that have been
    issued and have not settled yet. *)

Record Request : Type := mkRequest {
  req_start : Point;
  req_target : Elevator;
  req_plan : FloorPlan
}.

Definition request_of (a : Action) : list Request :=
  match a with
  | generateContent u t plan => [mkRequest u t plan]
  | _ => []
  end.

Definition issued (acts : list Action) : list Request := flat_map request_of acts.









(** The backend call threw, timed out, or its text did not parse. *)
Definition backend_failed (o : BackendOutcome) : bool :=
  match o with
  | Rejected _ | Unparseable _ => true
  | Parsed _ => false
  end.

(** A response with both fields of the expected shape, where the coordinate
    list is shorter than two points or the instruction list is empty. *)
Definition partial_failure (coords : list Point) (instructions : list string) : Prop :=
  (List.length coords < 2)%nat \/ instructions = [].




(** The string holds no hyphen. *)
Fixpoint no_dash (s : string) : Prop :=
  match s with
  | EmptyString => True
  | String c rest => c <> "-"%char /\ no_dash rest
  end.

(** ** Regions of the plane used in the statements *)

Definition strictly_between (v a b : R) : Prop := a < v < b \/ b < v < a.

(** The geographic point lies strictly inside the bounds rectangle. *)
Definition inside_bounds (g : GeoPoint) (bounds : GeoBounds) : Prop :=
  latitude (southEast bounds) < latitude g < latitude (northWest bounds)
  /\ longitude (northWest bounds) < longitude g < longitude (southEast bounds).

(** The pixel lies strictly inside the image rectangle. *)
Definition inside_image (p : Point) (d : Dimensions) : Prop :=
  0 < x p < width d /\ 0 < y p < height d.

(** North-west is north and west of south-east. *)
Definition proper_bounds (bounds : GeoBounds) : Prop :=
  latitude (southEast bounds) < latitude (northWest bounds)
  /\ longitude (northWest bounds) < longitude (southEast bounds).

(** ** Scenario data of the specification *)

Definition scenario_dims : Dimensions := {| width := 800; height := 600 |}.
Definition scenario_fix : GeoPoint :=
  {| latitude := 340524 / 10000; longitude := - (1182435 / 10000) |}.
Definition scenario_midpoint : GeoPoint :=
  {| latitude := 3405245 / 100000; longitude := - (1182435 / 10000) |}.

Definition origin : Point := {| x := 0; y := 0 |}.
Definition elevator_a : Elevator :=
  {| id := "a"; name := "Lift A"; location := {| x := 3; y := 4 |}; floor := "1" |}.
Definition elevator_b : Elevator :=
  {| id := "b"; name := "Lift B"; location := {| x := 4; y := 3 |}; floor := "1" |}.
Definition elevator_c : Elevator :=
  {| id := "c"; name := "Lift C"; location := {| x := 1; y := 0 |}; floor := "1" |}.

Definition scenario_pixel : Point := {| x := 400; y := 300 |}.

Definition no_format (_ : R) : string := "".

Definition first_copy : Env := {| ai := true; toFixed4 := no_format; revision := FirstCopy |}.
Definition second_copy : Env := {| ai := true; toFixed4 := no_format; revision := SecondCopy |}.
Definition no_client : Env := {| ai := false; toFixed4 := no_format; revision := FirstCopy |}.

Definition E1 : Elevator :=
  {| id := "E1"; name := "E1"; location := {| x := 700; y := 500 |}; floor := "1" |}.

Definition scenario_plan : FloorPlan :=
  {| plan_id := "custom-1"; plan_name := "plan.png";
     imageUrl := "data:image/png;base64,AAAA";
     elevators := [E1]; dimensions := scenario_dims |}.

Definition scenario_user : Point := {| x := 100; y := 100 |}.

(** The backend gives up on the path and says so in its one instruction. *)
Definition gave_up : AiPathResponse :=
  {| path_coordinates := Some [];
     step_by_step_instructions := Some ["No clear path could be determined."%string] |}.

(** The backend drifts both endpoints. *)
Definition drifted : AiPathResponse :=
  {| path_coordinates :=
       Some [ {| x := 90; y := 95 |}; {| x := 400; y := 100 |}; {| x := 710; y := 490 |} ];
     step_by_step_instructions := Some ["Walk along the corridor."%string] |}.

Definition idle : State :=
  {| currentFloorPlan := Some scenario_plan; userLocation := None;
     userGeoLocation := None; gpsStatus := initialAppStatus; isGpsDerived := false;
     isAnalyzingPlan := false; nearestElevator := None; selectedElevator := None;
     path := None; aiPathInstructions := None; isFetchingAiPath := false;
     isNavigatingWithGps := false; targetElevatorGps := None; gpsWatchId := None |}.

(** Live navigation towards [E1] from [scenario_user], with a route on
    display; [pending] is the same state while a request is in flight. *)
Definition navigating : State :=
  {| currentFloorPlan := Some scenario_plan; userLocation := Some scenario_user;
     userGeoLocation := None;
     gpsStatus := "AI path to E1 generated. Follow instructions.";
     isGpsDerived := false; isAnalyzingPlan := false; nearestElevator := None;
     selectedElevator := Some E1;
     path := Some [scenario_user; {| x := 400; y := 100 |}; location E1];
     aiPathInstructions := Some ["Walk along the corridor."%string];
     isFetchingAiPath := false; isNavigatingWithGps := true;
     targetElevatorGps := None; gpsWatchId := Some 7%nat |}.

Definition pending : State := render navigating [setIsFetchingAiPath true].

(** The fixes of the arrival scenario: the geographic points whose pixels are
    (695, 505) and (600, 400) on the 800 x 600 plan. *)
Definition pixel_near : Point := {| x := 695; y := 505 |}.
Definition pixel_far : Point := {| x := 600; y := 400 |}.

Definition geo_of (p : Point) : GeoPoint :=
  {| latitude := mapRange (y p) 0 (height scenario_dims)
                   (latitude (northWest FLOOR_PLAN_GEO_BOUNDS))
                   (latitude (southEast FLOOR_PLAN_GEO_BOUNDS));
     longitude := mapRange (x p) 0 (width scenario_dims)
                    (longitude (northWest FLOOR_PLAN_GEO_BOUNDS))
                    (longitude (southEast FLOOR_PLAN_GEO_BOUNDS)) |}.

(** A fix north of the calibrated bounds. *)
Definition fix_outside : GeoPoint :=
  {| latitude := 35; longitude := - (1182435 / 10000) |}.



(** ** More of App.tsx: clearing, uploading and analysing a plan *)

Definition resetAllLocationsAndSelections (s : State) (statusMessage : option string)
    : list Action :=
  [ setUserLocation None; setUserGeoLocation None; setNearestElevator None;
    setSelectedElevator None; setPath None; setAiPathInstructions None;
    setIsFetchingAiPath false; setIsGpsDerived false ]
  ++ stopGpsNavigation s None
  ++ [ setTargetElevatorGps None;
       setGpsStatus
         match given statusMessage with
         | Some m => m
         | None =>
             match currentFloorPlan s with
             | Some _ => "Location cleared. Click map or an elevator to start."
             | None => initialAppStatus
             end
         end%string ].

(** The two setters of [App] that the navigation handlers never call, and the
    calls that start reading the file and the elevator-detection request. *)
Inductive PlanAction : Type :=
| nav (a : Action)
| setCurrentFloorPlan (v : option FloorPlan)
| setIsAnalyzingPlan (v : bool)
| readAsDataURL (fileName : string)
| detectElevators (imageUrl : string).

Definition commit_plan (s : State) (a : PlanAction) : State :=
  match a with
  | nav a => commit s a
  | setCurrentFloorPlan v =>
      mkState v (userLocation s) (userGeoLocation s) (gpsStatus s) (isGpsDerived s)
        (isAnalyzingPlan s) (nearestElevator s) (selectedElevator s) (path s)
        (aiPathInstructions s) (isFetchingAiPath s) (isNavigatingWithGps s)
        (targetElevatorGps s) (gpsWatchId s)
  | setIsAnalyzingPlan v =>
      mkState (currentFloorPlan s) (userLocation s) (userGeoLocation s) (gpsStatus s)
        (isGpsDerived s) v (nearestElevator s) (selectedElevator s) (path s)
        (aiPathInstructions s) (isFetchingAiPath s) (isNavigatingWithGps s)
        (targetElevatorGps s) (gpsWatchId s)
  | readAsDataURL _ | detectElevators _ => s
  end.

Definition render_plan (s : State) (acts : list PlanAction) : State :=
  fold_left commit_plan acts s.

(** A non-negative integer printed in a template string. *)
Definition decimal (n : nat) : string := NilEmpty.string_of_uint (Nat.to_uint n).

Record File : Type := mkFile { file_name : string; file_type : string }.

Record GeminiElevatorDetection : Type := mkDetection {
  x_percent : R;
  y_percent : R;
  description : string
}.

(** [a || b] on numbers: [b] when [a] is zero. *)
Definition or_default (a b : R) : R := if Reqb a 0 then b else a.

Definition loading_dimensions (s : State) : Dimensions :=
  match currentFloorPlan s with
  | Some plan =>
      {| width := or_default (width (dimensions plan)) 800;
         height := or_default (height (dimensions plan)) 600 |}
  | None => {| width := 800; height := 600 |}
  end.

(** [handleFloorPlanUpload]; [now] is the reading of [Date.now()]. *)
Definition handleFloorPlanUpload (now : nat) (s : State) (file : option File)
    : list PlanAction :=
  if isAnalyzingPlan s then []
  else
    match file with
    | Some f =>
        [setIsAnalyzingPlan true]
        ++ map nav (resetAllLocationsAndSelections s
                      (Some ("Uploading '" ++ file_name f ++ "'...")%string))
        ++ [ setCurrentFloorPlan
               (Some {| plan_id := ("custom-loading-" ++ decimal now)%string;
                        plan_name := ("Processing '" ++ file_name f ++ "'...")%string;
                        imageUrl := "";
                        elevators := [];
                        dimensions := loading_dimensions s |});
             nav (setGpsStatus ("AI is analyzing '" ++ file_name f
                                ++ "'... Please wait.")%string);
             readAsDataURL (file_name f) ]
    | None => []
    end.

(** [reader.onerror] and [img.onerror]. *)
Definition upload_failed (message : string) : list PlanAction :=
  [ nav (setGpsStatus message); setIsAnalyzingPlan false; setCurrentFloorPlan None ].

(** One element of [detectedElevatorsRaw.map((item, index) => ...)]. *)
Definition detected_elevator (now : nat) (imageWidth imageHeight : R) (index : nat)
    (item : GeminiElevatorDetection) : Elevator :=
  {| id := ("ai-elevator-" ++ decimal now ++ "-" ++ decimal index)%string;
     name := if truthy (description item) then description item
             else ("AI Detected Elevator " ++ decimal (index + 1))%string;
     location := {| x := (x_percent item / 100) * imageWidth;
                    y := (y_percent item / 100) * imageHeight |};
     floor := "N/A (AI)" |}.

(** [clock i] is what [Date.now()] reads while element [i] is converted. *)
Fixpoint newElevators_from (clock : nat -> nat) (imageWidth imageHeight : R)
    (index : nat) (items : list GeminiElevatorDetection) : list Elevator :=
  match items with
  | [] => []
  | item :: rest =>
      detected_elevator (clock index) imageWidth imageHeight index item
      :: newElevators_from clock imageWidth imageHeight (S index) rest
  end.

Definition newElevators (clock : nat -> nat) (imageWidth imageHeight : R)
    (items : list GeminiElevatorDetection) : list Elevator :=
  newElevators_from clock imageWidth imageHeight 0 items.

Definition custom_plan (now : nat) (planName imageUrl : string)
    (imageWidth imageHeight : R) (found : list Elevator) : FloorPlan :=
  {| plan_id := ("custom-" ++ decimal now)%string; plan_name := planName;
     imageUrl := imageUrl; elevators := found;
     dimensions := {| width := imageWidth; height := imageHeight |} |}.

Inductive DetectionOutcome : Type :=
| DetectionRejected (reason : string)
| DetectionUnparseable (text : string)
| Detected (detectedElevatorsRaw : list GeminiElevatorDetection).

(** [analyzeFloorPlanWithGemini] up to its [await]; [closure] is the state of
    the render in which the upload handler ran. *)
Definition analyze_begin (env : Env) (closure : State) (now : nat)
    (imageUrl : string) (imageWidth imageHeight : R) (planName : string)
    : list PlanAction :=
  if negb (ai env) then
    map nav (resetAllLocationsAndSelections closure
               (Some ("Uploaded '" ++ planName
                      ++ "'. AI analysis skipped (AI client not init). Elevators cleared.")
                  %string))
    ++ [ setCurrentFloorPlan
           (Some (custom_plan now planName imageUrl imageWidth imageHeight []));
         setIsAnalyzingPlan false ]
  else [detectElevators imageUrl].

(** [analyzeFloorPlanWithGemini] after the [await]. *)
Definition analyze_settle (now : nat) (clock : nat -> nat) (imageUrl : string)
    (imageWidth imageHeight : R) (planName : string) (o : DetectionOutcome)
    : list PlanAction :=
  match o with
  | Detected detectedElevatorsRaw =>
      let found := newElevators clock imageWidth imageHeight detectedElevatorsRaw in
      [ setCurrentFloorPlan
          (Some (custom_plan now planName imageUrl imageWidth imageHeight found));
        nav (setGpsStatus
               (if (0 <? List.length found)%nat then
                  "AI analysis complete for '" ++ planName ++ "'. Found "
                  ++ decimal (List.length found)
                  ++ " elevator(s). Attempting initial GPS. Click map or an elevator to start navigation."
                else
                  "AI analysis complete for '" ++ planName
                  ++ "'. No elevators detected. Attempting initial GPS. Click map to set location.")
               %string) ]
  | DetectionRejected _ | DetectionUnparseable _ =>
      [ nav consoleError;
        setCurrentFloorPlan
          (Some (custom_plan now planName imageUrl imageWidth imageHeight []));
        nav (setGpsStatus
               ("Error during AI analysis for '" ++ planName
                ++ "'. Plan loaded without elevators. Check console. Attempting initial GPS.")
               %string) ]
  end
  ++ [setIsAnalyzingPlan false].

(** ** FloorPlanDisplay.tsx: a click on the map *)

Definition handleMapClick (floorPlan : FloorPlan) (clientX clientY rectLeft rectTop : R)
    : Point :=
  let px := clientX - rectLeft in
  let py := clientY - rectTop in
  {| x := Rmax 0 (Rmin px (width (dimensions floorPlan)));
     y := Rmax 0 (Rmin py (height (dimensions floorPlan))) |}.

(** ** The sketch of the handheld remote

    [loop] of the Arduino sketch, one pass: the hardware calls it makes and
    the new value of the global [currentBuzz].  [int] is read as an integer
    (the values stay far inside the 32-bit range) and the [float] distance as
    an exact real. *)
Module Sketch.

Inductive Level : Type := HIGH | LOW.

Inductive Call : Type :=
| digitalWrite (pin : Z) (level : Level)
| delay (ms : Z)
| tone (pin : Z) (frequency : Z)
| noTone (pin : Z)
| press (button : Z)
| release (button : Z)
| sendReport.

Definition X_BUTTON : Z := 1.
Definition ultrasonicBuzzPin : Z := 22.
Definition buttonLedPin : Z := 18.
Definition ultrasonicTrigPin : Z := 15.
Definition initialBuzz : Z := 1500.

(** What one pass reads: the button pin, the echo pulse length in
    microseconds and whether a host is connected. *)
Record Reading : Type := mkReading {
  buttonState : Level;
  timeTaken : Z;
  isConnected : bool
}.

Definition distance (r : Reading) : R := (IZR (timeTaken r) * (34 / 1000)) / 2.

Definition near (r : Reading) : bool :=
  if Rle_dec (distance r) 40 then true else false.

Definition loop (currentBuzz : Z) (r : Reading) : list Call * Z :=
  let led :=
    match buttonState r with
    | HIGH => [digitalWrite buttonLedPin LOW]
    | LOW => [digitalWrite buttonLedPin LOW]
    end in
  let ping :=
    [ digitalWrite ultrasonicTrigPin LOW; delay 2;
      digitalWrite ultrasonicTrigPin HIGH; delay 10;
      digitalWrite ultrasonicTrigPin LOW ] in
  let buzz :=
    if near r then
      ([tone ultrasonicBuzzPin currentBuzz],
       if (currentBuzz - 40 =? 500)%Z then 1500%Z else (currentBuzz - 40)%Z)
    else ([noTone ultrasonicBuzzPin], currentBuzz) in
  let pad :=
    if isConnected r then
      [ match buttonState r with
        | LOW => press X_BUTTON
        | HIGH => release X_BUTTON
        end;
        sendReport; delay 8 ]
    else [] in
  (led ++ ping ++ fst buzz ++ pad, snd buzz).

(** The passes of [loop] over a sequence of readings. *)
Fixpoint passes (currentBuzz : Z) (rs : list Reading) : list Call * Z :=
  match rs with
  | [] => ([], currentBuzz)
  | r :: rest =>
      let one := loop currentBuzz r in
      let more := passes (snd one) rest in
      (fst one ++ fst more, snd more)
  end.

End Sketch.

(** ** Data for the further examples *)

Definition collapsed_bounds : GeoBounds :=
  {| northWest := {| latitude := 34; longitude := - (118) |};
     southEast := {| latitude := 34; longitude := - (118) |} |}.

Definition empty_plan : FloorPlan :=
  {| plan_id := "custom-2"; plan_name := "empty.png";
     imageUrl := "data:image/png;base64,AAAA";
     elevators := []; dimensions := scenario_dims |}.

Definition two_detections : list GeminiElevatorDetection :=
  [ {| x_percent := 15; y_percent := 30; description := "Elevator near main entrance" |};
    {| x_percent := 80; y_percent := 65; description := "" |} ].

(** Live navigation with the straight line but no instructions, and a pixel
    a few steps from [scenario_user]. *)
Definition navigating_plain : State := render navigating [setAiPathInstructions None].
Definition pixel_step : Point := {| x := 110; y := 110 |}.

(** * Properties *)

Lemma Rltb_true (a b : R) : a < b -> Rltb a b = true.
Proof. intro H. unfold Rltb. destruct (Rlt_dec a b); [reflexivity | contradiction]. Qed.

Lemma Rltb_false (a b : R) : b <= a -> Rltb a b = false.
Proof. intro H. unfold Rltb. destruct (Rlt_dec a b); [lra | reflexivity]. Qed.

Lemma Reqb_true (a b : R) : a = b -> Reqb a b = true.
Proof. intro H. unfold Reqb. destruct (Req_dec_T a b); [reflexivity | contradiction]. Qed.

Lemma Reqb_false (a b : R) : a <> b -> Reqb a b = false.
Proof. intro H. unfold Reqb. destruct (Req_dec_T a b); [contradiction | reflexivity]. Qed.

Lemma mapRange_linear (v a b c d : R) :
  a <> b -> mapRange v a b c d = (v - a) * (d - c) / (b - a) + c.
Proof. intro H. unfold mapRange. rewrite (Reqb_false _ _ H). reflexivity. Qed.

(** C9, as stated: the scenario fix does not map to pixel (400, 300). *)
Lemma C9_scenario_is_not_400_300 :
  mapGeoToPixel scenario_fix FLOOR_PLAN_GEO_BOUNDS scenario_dims
  <> Some {| x := 400; y := 300 |}.
Proof.
  unfold mapGeoToPixel, scenario_fix, FLOOR_PLAN_GEO_BOUNDS, scenario_dims, Rgtb; simpl.
  rewrite !Rltb_false by lra. simpl.
  rewrite !mapRange_linear by lra.
  intro H. injection H as _ Hy.
  revert Hy.
  replace ((340524 / 10000 - 340529 / 10000) * (600 - 0) /
           (340520 / 10000 - 340529 / 10000) + 0) with (1000 / 3) by (field).
  rewrite Rmin_left by lra. rewrite Rmax_right by lra. lra.
Qed.

(** C9, amended: with the calibrated bounds and an 800 x 600 image the fix
    (34.0524, -118.2435) maps to the pixel (400, 1000/3), about (400, 333.33);
    the pixel (400, 300) is the image of the midpoint (34.05245, -118.2435). *)
Theorem C9_scenario_pixel :
  mapGeoToPixel scenario_fix FLOOR_PLAN_GEO_BOUNDS scenario_dims
    = Some {| x := 400; y := 1000 / 3 |}
  /\ mapGeoToPixel scenario_midpoint FLOOR_PLAN_GEO_BOUNDS scenario_dims
    = Some {| x := 400; y := 300 |}.
Proof.
  split;
    unfold mapGeoToPixel, scenario_fix, scenario_midpoint,
      FLOOR_PLAN_GEO_BOUNDS, scenario_dims, Rgtb; simpl;
    rewrite !Rltb_false by lra; simpl;
    rewrite !mapRange_linear by lra;
    f_equal; f_equal.
  - replace (_ / _ + 0) with 400 by field.
    rewrite Rmin_left by lra. apply Rmax_right; lra.
  - replace (_ / _ + 0) with (1000 / 3) by field.
    rewrite Rmin_left by lra. apply Rmax_right; lra.
  - replace (_ / _ + 0) with 400 by field.
    rewrite Rmin_left by lra. apply Rmax_right; lra.
  - replace (_ / _ + 0) with 300 by field.
    rewrite Rmin_left by lra. apply Rmax_right; lra.
Qed.

(** ** Geometry: nearest elevator *)

Section Nearest.

Variable userLocation0 : Point.

Let dist (e : Elevator) : R := calculateDistance userLocation0 (location e).

Lemma nearest_loop_keeps (tail : list Elevator) (e : Elevator) :
  (forall a, In a tail -> dist e <= dist a) ->
  nearest_loop userLocation0 tail (Some e, Some (dist e)) = (Some e, Some (dist e)).
Proof.
  induction tail as [| a tail IH]; intro Hge; [reflexivity |].
  unfold nearest_loop in *. simpl.
  unfold nearest_step at 2. simpl.
  fold (dist a). rewrite Rltb_false by (apply Hge; left; reflexivity).
  apply IH. intros b Hb. apply Hge. right. exact Hb.
Qed.

Lemma nearest_loop_first_min (front : list Elevator) :
  forall (e : Elevator) (tail : list Elevator) (acc : option Elevator * option R),
    (forall a, In a front -> dist e < dist a) ->
    (forall a, In a tail -> dist e <= dist a) ->
    below (dist e) (snd acc) = true ->
    nearest_loop userLocation0 (front ++ e :: tail) acc = (Some e, Some (dist e)).
Proof.
  induction front as [| a front IH]; intros e tail acc Hlt Hge Hacc.
  - unfold nearest_loop. simpl. unfold nearest_step at 2.
    fold (dist e). rewrite Hacc. apply nearest_loop_keeps. exact Hge.
  - unfold nearest_loop in *. simpl. apply IH.
    + intros b Hb. apply Hlt. right. exact Hb.
    + exact Hge.
    + unfold nearest_step. fold (dist a).
      destruct (below (dist a) (snd acc)); [| exact Hacc].
      simpl. apply Rltb_true. apply Hlt. left. reflexivity.
Qed.

Lemma findNearestElevator_first_min (front tail : list Elevator) (e : Elevator) :
  (forall a, In a front -> dist e < dist a) ->
  (forall a, In a tail -> dist e <= dist a) ->
  findNearestElevator userLocation0 (front ++ e :: tail) = Some e.
Proof.
  intros Hlt Hge. unfold findNearestElevator.
  rewrite (nearest_loop_first_min front e tail (None, None) Hlt Hge eq_refl).
  destruct (front ++ e :: tail) eqn:E; [| reflexivity].
  destruct front; discriminate E.
Qed.

(** Every non-empty list splits at the first element of least distance. *)
Lemma first_min_split (l : list Elevator) :
  l <> [] ->
  exists front e tail,
    l = front ++ e :: tail
    /\ (forall a, In a front -> dist e < dist a)
    /\ (forall a, In a tail -> dist e <= dist a).
Proof.
  induction l as [| a l IH]; intro Hne; [contradiction Hne; reflexivity |].
  destruct l as [| b l].
  - exists [], a, []. repeat split; intros c [].
  - destruct IH as (front & e & tail & El & Hlt & Hge); [discriminate |].
    destruct (Rle_lt_dec (dist a) (dist e)) as [Hae | Hea].
    + exists [], a, (b :: l). repeat split; [intros c [] |].
      intros c Hc. rewrite El in Hc. apply in_app_or in Hc.
      destruct Hc as [Hc | [Hc | Hc]].
      * specialize (Hlt c Hc). lra.
      * subst c. exact Hae.
      * specialize (Hge c Hc). lra.
    + exists (a :: front), e, tail. rewrite El. repeat split.
      * intros c [Hc | Hc]; [subst c; exact Hea | apply Hlt; exact Hc].
      * exact Hge.
Qed.

Lemma findNearestElevator_is_min (l : list Elevator) :
  l <> [] ->
  exists e, findNearestElevator userLocation0 l = Some e
            /\ In e l /\ forall a, In a l -> dist e <= dist a.
Proof.
  intro Hne. destruct (first_min_split l Hne) as (front & e & tail & El & Hlt & Hge).
  exists e. subst l. split; [apply findNearestElevator_first_min; assumption |].
  split; [apply in_or_app; right; left; reflexivity |].
  intros a Ha. apply in_app_or in Ha. destruct Ha as [Ha | [Ha | Ha]].
  - specialize (Hlt a Ha). lra.
  - subst a. lra.
  - apply Hge. exact Ha.
Qed.

Lemma findNearestElevator_unique_min (l : list Elevator) (e : Elevator) :
  In e l ->
  (forall a, In a l -> a <> e -> dist e < dist a) ->
  findNearestElevator userLocation0 l = Some e.
Proof.
  intros He Huniq.
  destruct (findNearestElevator_is_min l) as (m & Em & Hm & Hmin).
  - intro E. subst l. contradiction He.
  - rewrite Em. f_equal.
    destruct (classic (m = e)) as [E | N]; [exact E |].
    specialize (Huniq m Hm N). specialize (Hmin e He). lra.
Qed.

End Nearest.

(** C6: [findNearestElevator] returns none on the empty list; on a list
    [front ++ e :: tail] where every element of [front] is strictly farther
    than [e] and no element of [tail] is nearer, it returns [e] (strict [<]:
    the first of several nearest elevators wins); on a non-empty list it
    returns an element of least distance; and when one element is strictly
    nearer than every other, every reordering of the list gives that element. *)
Theorem C6_findNearestElevator_spec (p : Point) :
  findNearestElevator p [] = None
  /\ (forall front e tail,
        (forall a, In a front ->
           calculateDistance p (location e) < calculateDistance p (location a)) ->
        (forall a, In a tail ->
           calculateDistance p (location e) <= calculateDistance p (location a)) ->
        findNearestElevator p (front ++ e :: tail) = Some e)
  /\ (forall l, l <> [] ->
        exists e, findNearestElevator p l = Some e /\ In e l
                  /\ forall a, In a l ->
                       calculateDistance p (location e)
                       <= calculateDistance p (location a))
  /\ (forall l l' e,
        In e l ->
        (forall a, In a l -> a <> e ->
           calculateDistance p (location e) < calculateDistance p (location a)) ->
        Permutation l l' ->
        findNearestElevator p l' = Some e
        /\ findNearestElevator p l' = findNearestElevator p l).
Proof.
  split; [reflexivity |].
  split; [intros; apply findNearestElevator_first_min; assumption |].
  split; [intros; apply findNearestElevator_is_min; assumption |].
  intros l l' e He Huniq Hperm.
  assert (H' : findNearestElevator p l' = Some e).
  { apply findNearestElevator_unique_min.
    - apply (Permutation_in _ Hperm). exact He.
    - intros a Ha. apply Huniq. apply (Permutation_in _ (Permutation_sym Hperm)). exact Ha. }
  split; [exact H' |].
  rewrite H'. symmetry. apply findNearestElevator_unique_min; assumption.
Qed.

(** Distances are compared through their squares. *)
Lemma calculateDistance_lt (p a b : Point) :
  (x p - x a) ^ 2 + (y p - y a) ^ 2 < (x p - x b) ^ 2 + (y p - y b) ^ 2 ->
  calculateDistance p a < calculateDistance p b.
Proof.
  intro H. unfold calculateDistance. apply sqrt_lt_1_alt.
  split; [apply Rplus_le_le_0_compat; apply pow2_ge_0 | exact H].
Qed.

Lemma calculateDistance_le (p a b : Point) :
  (x p - x a) ^ 2 + (y p - y a) ^ 2 <= (x p - x b) ^ 2 + (y p - y b) ^ 2 ->
  calculateDistance p a <= calculateDistance p b.
Proof. intro H. unfold calculateDistance. apply sqrt_le_1_alt. exact H. Qed.

Lemma calculateDistance_below (p a : Point) (c : R) :
  0 <= c -> (x p - x a) ^ 2 + (y p - y a) ^ 2 < c ^ 2 ->
  calculateDistance p a < c.
Proof.
  intros Hc H. unfold calculateDistance.
  rewrite <- (sqrt_pow2 c Hc).
  apply sqrt_lt_1_alt.
  split; [apply Rplus_le_le_0_compat; apply pow2_ge_0 | exact H].
Qed.

Lemma calculateDistance_not_below (p a : Point) (c : R) :
  0 <= c -> c ^ 2 <= (x p - x a) ^ 2 + (y p - y a) ^ 2 ->
  c <= calculateDistance p a.
Proof.
  intros Hc H. unfold calculateDistance.
  rewrite <- (sqrt_pow2 c Hc).
  apply sqrt_le_1_alt. exact H.
Qed.

(** On a tie the first candidate wins in either order, and a strictly nearest
    candidate wins wherever it stands. *)
Lemma C6_findNearestElevator_witness :
  findNearestElevator origin [elevator_a; elevator_b] = Some elevator_a
  /\ findNearestElevator origin [elevator_b; elevator_a] = Some elevator_b
  /\ findNearestElevator origin [elevator_c; elevator_a] = Some elevator_c.
Proof.
  destruct (C6_findNearestElevator_spec origin) as (_ & Hfirst & _ & Hperm).
  split; [| split].
  - apply (Hfirst [] elevator_a [elevator_b]).
    + intros a [].
    + intros a [E | []]. subst a. apply calculateDistance_le. simpl; nra.
  - apply (Hfirst [] elevator_b [elevator_a]).
    + intros a [].
    + intros a [E | []]. subst a. apply calculateDistance_le. simpl; nra.
  - apply (Hperm [elevator_a; elevator_c] [elevator_c; elevator_a] elevator_c).
    + right. left. reflexivity.
    + intros a [E | [E | []]] N; subst a.
      * apply calculateDistance_lt. simpl; nra.
      * contradiction N. reflexivity.
    + apply perm_swap.
Defined.

(** ** Geometry: the two projections *)

Lemma fraction_between (v a b : R) :
  strictly_between v a b -> 0 < (v - a) / (b - a) < 1.
Proof.
  intros [[H1 H2] | [H1 H2]].
  - split.
    + apply Rdiv_lt_0_compat; lra.
    + apply (Rmult_lt_reg_r (b - a)); [lra |].
      unfold Rdiv. rewrite Rmult_assoc, Rinv_l by lra. lra.
  - replace ((v - a) / (b - a)) with ((a - v) / (a - b)) by (field; lra).
    split.
    + apply Rdiv_lt_0_compat; lra.
    + apply (Rmult_lt_reg_r (a - b)); [lra |].
      unfold Rdiv. rewrite Rmult_assoc, Rinv_l by lra. lra.
Qed.

Lemma mapRange_affine (v a b c d : R) :
  a <> b -> mapRange v a b c d = c + (v - a) / (b - a) * (d - c).
Proof.
  intro H. rewrite mapRange_linear by exact H. field. lra.
Qed.

Lemma mapRange_between (v a b c d : R) :
  strictly_between v a b -> c <> d -> strictly_between (mapRange v a b c d) c d.
Proof.
  intros Hv Hcd.
  assert (Hab : a <> b) by (destruct Hv; lra).
  rewrite mapRange_affine by exact Hab.
  pose proof (fraction_between v a b Hv) as [H0 H1].
  set (t := (v - a) / (b - a)) in *.
  unfold strictly_between.
  destruct (Rlt_dec c d) as [Hlt | Hge]; [left | right]; split; nra.
Qed.

Lemma mapRange_inverse (v a b c d : R) :
  a <> b -> c <> d -> mapRange (mapRange v a b c d) c d a b = v.
Proof.
  intros Hab Hcd. rewrite (mapRange_linear _ c d) by exact Hcd.
  rewrite mapRange_linear by exact Hab. field. lra.
Qed.

Lemma clamp_inside (v w : R) : 0 < v < w -> Rmax 0 (Rmin v w) = v.
Proof. intros [H0 H1]. rewrite Rmin_left by lra. apply Rmax_right. lra. Qed.

Lemma mapGeoToPixel_inside (g : GeoPoint) (bounds : GeoBounds) (d : Dimensions) :
  inside_bounds g bounds -> 0 < width d -> 0 < height d ->
  mapGeoToPixel g bounds d
  = Some {| x := mapRange (longitude g) (longitude (northWest bounds))
                   (longitude (southEast bounds)) 0 (width d);
            y := mapRange (latitude g) (latitude (northWest bounds))
                   (latitude (southEast bounds)) 0 (height d) |}.
Proof.
  intros [[Hlat1 Hlat2] [Hlon1 Hlon2]] Hw Hh.
  unfold mapGeoToPixel, Rgtb. rewrite !Rltb_false by lra. simpl.
  f_equal. f_equal; apply clamp_inside.
  - destruct (mapRange_between (longitude g) (longitude (northWest bounds))
                (longitude (southEast bounds)) 0 (width d)) as [H | H];
      [left; lra | lra | exact H | lra].
  - destruct (mapRange_between (latitude g) (latitude (northWest bounds))
                (latitude (southEast bounds)) 0 (height d)) as [H | H];
      [right; lra | lra | exact H | lra].
Qed.

Lemma geo_pixel_geo (g : GeoPoint) (bounds : GeoBounds) (d : Dimensions) :
  inside_bounds g bounds -> 0 < width d -> 0 < height d ->
  exists p, mapGeoToPixel g bounds d = Some p
            /\ inside_image p d
            /\ mapPixelToGeo p bounds d = Some g.
Proof.
  intros Hin Hw Hh. eexists. split; [apply mapGeoToPixel_inside; assumption |].
  destruct Hin as [[Hlat1 Hlat2] [Hlon1 Hlon2]].
  split.
  - split; simpl.
    + destruct (mapRange_between (longitude g) (longitude (northWest bounds))
                  (longitude (southEast bounds)) 0 (width d)) as [H | H];
        [left; lra | lra | exact H | lra].
    + destruct (mapRange_between (latitude g) (latitude (northWest bounds))
                  (latitude (southEast bounds)) 0 (height d)) as [H | H];
        [right; lra | lra | exact H | lra].
  - unfold mapPixelToGeo. simpl. rewrite !mapRange_inverse by lra.
    destruct g; reflexivity.
Qed.

Lemma pixel_geo_pixel (p : Point) (bounds : GeoBounds) (d : Dimensions) :
  inside_image p d -> proper_bounds bounds ->
  exists g, mapPixelToGeo p bounds d = Some g
            /\ inside_bounds g bounds
            /\ mapGeoToPixel g bounds d = Some p.
Proof.
  intros [[Hx0 Hx1] [Hy0 Hy1]] [Hlat Hlon].
  eexists. split; [reflexivity |].
  assert (Hin : inside_bounds
                  {| latitude := mapRange (y p) 0 (height d)
                                   (latitude (northWest bounds))
                                   (latitude (southEast bounds));
                     longitude := mapRange (x p) 0 (width d)
                                    (longitude (northWest bounds))
                                    (longitude (southEast bounds)) |} bounds).
  { split; simpl.
    - destruct (mapRange_between (y p) 0 (height d) (latitude (northWest bounds))
                  (latitude (southEast bounds))) as [H | H];
        [left; lra | lra | lra | lra].
    - destruct (mapRange_between (x p) 0 (width d) (longitude (northWest bounds))
                  (longitude (southEast bounds))) as [H | H];
        [left; lra | lra | lra | lra]. }
  split; [exact Hin |].
  rewrite mapGeoToPixel_inside by (try exact Hin; lra).
  simpl. rewrite !mapRange_inverse by lra. destruct p; reflexivity.
Qed.

(** C5: for a geographic point strictly inside the bounds rectangle (and an
    image of positive width and height), [mapGeoToPixel] then [mapPixelToGeo]
    gives the point back; for a pixel strictly inside the image rectangle (and
    bounds whose north-west corner is north and west of the south-east one),
    [mapPixelToGeo] then [mapGeoToPixel] gives the pixel back.  In exact
    arithmetic the round trips are equalities. *)
Theorem C5_projection_round_trip (bounds : GeoBounds) (d : Dimensions) :
  (forall g, inside_bounds g bounds -> 0 < width d -> 0 < height d ->
     exists p, mapGeoToPixel g bounds d = Some p
               /\ mapPixelToGeo p bounds d = Some g)
  /\ (forall p, inside_image p d -> proper_bounds bounds ->
        exists g, mapPixelToGeo p bounds d = Some g
                  /\ mapGeoToPixel g bounds d = Some p).
Proof.
  split.
  - intros g Hin Hw Hh.
    destruct (geo_pixel_geo g bounds d Hin Hw Hh) as (p & H1 & _ & H2).
    exists p. split; assumption.
  - intros p Hin Hb.
    destruct (pixel_geo_pixel p bounds d Hin Hb) as (g & H1 & _ & H2).
    exists g. split; assumption.
Qed.

Lemma C5_projection_round_trip_witness :
  (exists p, mapGeoToPixel scenario_midpoint FLOOR_PLAN_GEO_BOUNDS scenario_dims = Some p
             /\ mapPixelToGeo p FLOOR_PLAN_GEO_BOUNDS scenario_dims
                = Some scenario_midpoint)
  /\ (exists g, mapPixelToGeo scenario_pixel FLOOR_PLAN_GEO_BOUNDS scenario_dims = Some g
                /\ mapGeoToPixel g FLOOR_PLAN_GEO_BOUNDS scenario_dims
                   = Some scenario_pixel).
Proof.
  destruct (C5_projection_round_trip FLOOR_PLAN_GEO_BOUNDS scenario_dims) as [Hgeo Hpix].
  split.
  - apply Hgeo; [| simpl; lra | simpl; lra].
    unfold inside_bounds; simpl. lra.
  - apply Hpix.
    + unfold inside_image; simpl. lra.
    + unfold proper_bounds; simpl. lra.
Defined.

(** ** The path request *)

Lemma validatedPath_endpoints (coords : list Point) (u : Point) (t : Elevator) :
  (2 <= List.length coords)%nat ->
  exists mid, validatedPath coords u t = u :: mid ++ [location t]
              /\ List.length (validatedPath coords u t) = List.length coords.
Proof.
  intro Hlen. destruct coords as [| c0 rest]; [simpl in Hlen; lia |].
  destruct rest as [| c1 rest]; [simpl in Hlen; lia |].
  exists (removelast (c1 :: rest)).
  unfold validatedPath, array_set.
  cbn [firstn skipn app List.length].
  replace (S (S (List.length rest)) - 1)%nat with (S (List.length rest)) by lia.
  cbn [firstn skipn].
  rewrite skipn_all.
  assert (Hfirst : firstn (List.length rest) (c1 :: rest) = removelast (c1 :: rest)).
  { rewrite removelast_firstn_len. simpl List.length. f_equal. }
  rewrite Hfirst. split; [reflexivity |].
  cbn [List.length app]. rewrite length_app. cbn [List.length].
  assert (Hrl : List.length (removelast (c1 :: rest)) = List.length rest).
  { rewrite <- Hfirst. rewrite length_firstn. simpl. lia. }
  rewrite Hrl. lia.
Qed.

Lemma try_body_backend_failed (env : Env) (u : Point) (t : Elevator) (o : BackendOutcome) :
  backend_failed o = true -> exists m, try_body env u t o = Throw m.
Proof.
  destruct o; intro H; try discriminate H; eexists; reflexivity.
Qed.

Lemma settle_after_throw (env : Env) (s : State) (u : Point) (t : Elevator)
    (o : BackendOutcome) (m : string) :
  try_body env u t o = Throw m ->
  fetch_settle env u t o = catch_block env u t ++ finally_block.
Proof. intro H. unfold fetch_settle. rewrite H. reflexivity. Qed.

(** C3: when the backend call throws, times out or returns text that does not
    parse, the stored path is exactly [start; target.location] and the stored
    instructions are the fixed three-line fallback of the copy at hand (three
    non-empty lines that do not depend on the request). *)
Theorem C3_backend_failure_fallback (env : Env) (s : State) (u : Point)
    (t : Elevator) (o : BackendOutcome) :
  backend_failed o = true ->
  let s' := render s (fetch_settle env u t o) in
  path s' = Some [u; location t]
  /\ aiPathInstructions s' = Some (catch_instructions env)
  /\ List.length (catch_instructions env) = 3%nat
  /\ Forall (fun line => truthy line = true) (catch_instructions env).
Proof.
  intros Hfail s'.
  destruct (try_body_backend_failed env u t o Hfail) as [m Hm].
  subst s'. rewrite (settle_after_throw env s u t o m Hm).
  repeat split.
  destruct env as [a f r]; destruct r; repeat constructor.
Qed.

Lemma C3_backend_failure_fallback_witness :
  path (render idle (fetch_settle second_copy scenario_user E1 (Rejected "timeout")))
  = Some [scenario_user; location E1]
  /\ aiPathInstructions
       (render idle (fetch_settle second_copy scenario_user E1 (Rejected "timeout")))
     = Some [ "AI pathfinding system encountered an error.";
              "A straight line to the elevator is shown on the map.";
              "Please use visual cues on the floor plan to navigate." ]%string.
Proof.
  destruct (C3_backend_failure_fallback second_copy idle scenario_user E1
              (Rejected "timeout") eq_refl) as (Hp & Hi & _).
  split; [exact Hp | exact Hi].
Defined.

Lemma second_copy_partial_failure (env : Env) (s : State) (u : Point) (t : Elevator)
    (coords : list Point) (instructions : list string) :
  revision env = SecondCopy ->
  partial_failure coords instructions ->
  let s' := render s (fetch_settle env u t
                        (Parsed {| path_coordinates := Some coords;
                                   step_by_step_instructions := Some instructions |})) in
  path s' = Some [u; location t]
  /\ aiPathInstructions s'
     = Some (match instructions with
             | [] => [ "AI was unable to determine a detailed path.";
                       "A straight line to the elevator is shown on the map." ]%string
             | _ :: _ => instructions
             end)
  /\ isFetchingAiPath s' = false.
Proof.
  intros Hrev Hpartial. unfold fetch_settle, try_body. rewrite Hrev. cbn [path_coordinates step_by_step_instructions].
  assert (Hcond : ((2 <=? List.length coords)%nat && (0 <? List.length instructions)%nat)
                  = false).
  { destruct Hpartial as [Hshort | Hempty].
    - apply andb_false_iff. left. apply Nat.leb_gt. exact Hshort.
    - subst instructions. apply andb_false_iff. right. reflexivity. }
  rewrite Hcond. destruct instructions; repeat split.
Qed.

(** C4, at the first copy of [fetchAiPathAndInstructions]: a well-formed
    response with no coordinates and one instruction is thrown away as
    invalid; the stored instructions are the three fixed lines of the [catch]
    block and the instruction the backend returned is lost.  The second copy
    keeps it. *)
Theorem C4_first_copy_drops_instructions :
  let first := render idle (fetch_settle first_copy scenario_user E1 (Parsed gave_up)) in
  let second := render idle (fetch_settle second_copy scenario_user E1 (Parsed gave_up)) in
  path first = Some [scenario_user; location E1]
  /\ aiPathInstructions first
     = Some [ "AI was unable to determine a detailed path.";
              "A straight line to the elevator is shown on the map.";
              "Please use visual cues on the floor plan to navigate." ]%string
  /\ aiPathInstructions first <> step_by_step_instructions gave_up
  /\ path second = Some [scenario_user; location E1]
  /\ aiPathInstructions second = step_by_step_instructions gave_up.
Proof.
  repeat split. discriminate.
Qed.





(** ** Handlers *)

#[local] Arguments String.append : simpl never.
#[local] Arguments calculateDistance : simpl never.
#[local] Arguments mapGeoToPixel : simpl never.
#[local] Arguments mapPixelToGeo : simpl never.
#[local] Arguments findNearestElevator : simpl never.

Ltac split_matches :=
  repeat match goal with
         | |- context [match ?c with _ => _ end] =>
             destruct c eqn:?; try discriminate
         end.


Lemma taps_dropped_while_pending (env : Env) (s : State) :
  isFetchingAiPath s = true ->
  (forall point, handleManualMapClick env s point = [])
  /\ (forall elevatorId, handleElevatorClick env s elevatorId = []).
Proof.
  intro Hp. split; intro a.
  - unfold handleManualMapClick. rewrite Hp.
    destruct (currentFloorPlan s); [| reflexivity].
    rewrite orb_true_r. reflexivity.
  - unfold handleElevatorClick. rewrite Hp.
    destruct (currentFloorPlan s); [| reflexivity].
    rewrite !orb_true_r. reflexivity.
Qed.




Lemma stop_keeps_flag (s : State) (message : option string) :
  isFetchingAiPath (render s (stopGpsNavigation s message)) = isFetchingAiPath s
  /\ issued (stopGpsNavigation s message) = [].
Proof.
  unfold stopGpsNavigation. split_matches; split; reflexivity.
Qed.



(** C10: while a path request is pending, [handleManualMapClick] and
    [handleElevatorClick] return at once: they call no setter and nothing
    outside the component, so the user location, the target, the path, the
    instructions, the watch and the status are those of before. *)
Theorem C10_taps_ignored_while_pending (env : Env) (s : State) :
  isFetchingAiPath s = true ->
  (forall point,
     handleManualMapClick env s point = []
     /\ render s (handleManualMapClick env s point) = s)
  /\ (forall elevatorId,
        handleElevatorClick env s elevatorId = []
        /\ render s (handleElevatorClick env s elevatorId) = s).
Proof.
  intro Hp. destruct (taps_dropped_while_pending env s Hp) as [Hmap Helev].
  split; intro a.
  - rewrite Hmap. split; reflexivity.
  - rewrite Helev. split; reflexivity.
Qed.

Lemma C10_taps_ignored_while_pending_witness :
  render pending (handleManualMapClick first_copy pending pixel_far) = pending
  /\ render pending (handleElevatorClick first_copy pending "E1") = pending.
Proof.
  destruct (C10_taps_ignored_while_pending first_copy pending eq_refl) as [Hmap Helev].
  split; [apply Hmap | apply Helev].
Defined.

(** ** Location fixes *)

Lemma mapGeoToPixel_none_iff (g : GeoPoint) (bounds : GeoBounds) (d : Dimensions) :
  mapGeoToPixel g bounds d = None
  <-> (latitude g > latitude (northWest bounds)
       \/ latitude g < latitude (southEast bounds)
       \/ longitude g < longitude (northWest bounds)
       \/ longitude g > longitude (southEast bounds)).
Proof.
  unfold mapGeoToPixel, Rgtb, Rltb.
  repeat match goal with
         | |- context [Rlt_dec ?a ?b] => destruct (Rlt_dec a b)
         end; cbn; split; intro H; try discriminate H; try reflexivity;
    try (now auto); lra.
Qed.

(** C8: when the plan is loaded and the fix does not project onto it, the
    handler records the geographic fix, marks the location as not live and
    sets one of the two "outside the mapped area" texts; the pixel location,
    the path and the target are those of before, as is everything the
    nearest-elevator effect is keyed on, and no request is issued. *)
Theorem C8_fix_outside_bounds (env : Env) (s : State) (plan : FloorPlan)
    (g : GeoPoint) (contextMessage : option string) :
  currentFloorPlan s = Some plan ->
  width (dimensions plan) <> 0 ->
  mapGeoToPixel g FLOOR_PLAN_GEO_BOUNDS (dimensions plan) = None ->
  let acts := processGpsLocation env s g contextMessage in
  let s' := render s acts in
  userLocation s' = userLocation s
  /\ path s' = path s
  /\ selectedElevator s' = selectedElevator s
  /\ gpsStatus s' = outside_status env s g
  /\ ((exists sel, selectedElevator s = Some sel /\ isNavigatingWithGps s = true
                   /\ gpsStatus s'
                      = ("Navigating to " ++ name sel
                         ++ ": User appears outside mapped area.")%string)
      \/ gpsStatus s'
         = ("GPS: " ++ show_geo env g
            ++ ". Your location appears outside the mapped area of this plan.")%string)
  /\ nearest_effect_deps s' = nearest_effect_deps s
  /\ isNavigatingWithGps s' = isNavigatingWithGps s
  /\ gpsWatchId s' = gpsWatchId s
  /\ issued acts = []
  /\ acts = [ setUserGeoLocation (Some g); setIsGpsDerived false;
              setGpsStatus (outside_status env s g) ].
Proof.
  intros Hplan Hw Hnone acts s'. subst s' acts.
  unfold processGpsLocation. rewrite Hplan, (Reqb_false _ _ Hw), Hnone.
  cbn. repeat split.
  unfold outside_status.
  destruct (selectedElevator s) as [sel |] eqn:Es; [| right; reflexivity].
  destruct (isNavigatingWithGps s) eqn:En; [| right; reflexivity].
  left. exists sel. repeat split.
Qed.

Lemma C8_fix_outside_bounds_witness :
  let s' := render navigating (processGpsLocation first_copy navigating fix_outside None) in
  userLocation s' = Some scenario_user
  /\ path s' = path navigating
  /\ selectedElevator s' = Some E1
  /\ gpsStatus s' = "Navigating to E1: User appears outside mapped area."%string.
Proof.
  assert (Hnone : mapGeoToPixel fix_outside FLOOR_PLAN_GEO_BOUNDS
                    (dimensions scenario_plan) = None).
  { apply mapGeoToPixel_none_iff. left. simpl. lra. }
  assert (Hw : width (dimensions scenario_plan) <> 0) by (simpl; lra).
  destruct (C8_fix_outside_bounds first_copy navigating scenario_plan fix_outside None
              eq_refl Hw Hnone) as (Hu & Hp & Hs & Hg & _).
  repeat split; assumption.
Defined.

Lemma no_clearWatch_in_begin (env : Env) (u : Point) (t : Elevator) (plan : FloorPlan)
    (w : nat) :
  ~ In (clearWatch w) (fetch_begin env u t plan).
Proof.
  unfold fetch_begin. destruct (negb (ai env) || negb (truthy (imageUrl plan)));
    cbn; intuition discriminate.
Qed.

(** C7: during live navigation towards [sel], with the arrival threshold of
    25 pixels, a fix whose pixel is nearer than the threshold stops the
    navigation (the watch is cleared and its handle dropped), clears the path
    and reports "Arrived at ...!"; a fix whose pixel is at the threshold or
    farther leaves the navigation and the watch running and reports
    "Navigating to ...". *)
Theorem C7_arrival_threshold (env : Env) (s : State) (plan : FloorPlan)
    (sel : Elevator) (g : GeoPoint) (contextMessage : option string) (p : Point) :
  currentFloorPlan s = Some plan ->
  width (dimensions plan) <> 0 ->
  isNavigatingWithGps s = true ->
  selectedElevator s = Some sel ->
  mapGeoToPixel g FLOOR_PLAN_GEO_BOUNDS (dimensions plan) = Some p ->
  let acts := processGpsLocation env s g contextMessage in
  let s' := render s acts in
  ARRIVAL_THRESHOLD_PIXELS = 25
  /\ (calculateDistance p (location sel) < ARRIVAL_THRESHOLD_PIXELS ->
      isNavigatingWithGps s' = false
      /\ gpsWatchId s' = None
      /\ (forall w, gpsWatchId s = Some w -> In (clearWatch w) acts)
      /\ path s' = None
      /\ gpsStatus s' = ("Arrived at " ++ name sel ++ "!")%string
      /\ userLocation s' = Some p
      /\ issued acts = [])
  /\ (ARRIVAL_THRESHOLD_PIXELS <= calculateDistance p (location sel) ->
      isNavigatingWithGps s' = true
      /\ gpsWatchId s' = gpsWatchId s
      /\ (forall w, ~ In (clearWatch w) acts)
      /\ gpsStatus s'
         = ("Navigating to " ++ name sel ++ "... User location updated by GPS.")%string
      /\ userLocation s' = Some p).
Proof.
  intros Hplan Hw Hnav Hsel Hpix acts s'. subst s' acts.
  split; [reflexivity |].
  unfold processGpsLocation, located.
  rewrite Hplan, (Reqb_false _ _ Hw), Hpix, Hsel, Hnav.
  split; intro Hd.
  - rewrite (Rltb_true _ _ Hd). unfold stopGpsNavigation.
    destruct (gpsWatchId s) as [w0 |] eqn:Ew; cbn; repeat split;
      try (intros w E; injection E as <-; auto 10); try discriminate; try assumption.
  - rewrite (Rltb_false _ _ Hd).
    destruct (is_some (aiPathInstructions s) && nonempty (path s)) eqn:E1.
    + unfold slide_start. destruct (path s); cbn; rewrite ?Hnav; repeat split;
        intros w; cbn; intuition discriminate.
    + destruct (negb (is_some (aiPathInstructions s)) && negb (isFetchingAiPath s)
                && moved_far p (userLocation s)) eqn:E2.
      * cbn [fst snd]. unfold fetch_begin.
        destruct (negb (ai env) || negb (truthy (imageUrl plan)));
          cbn; rewrite ?Hnav; repeat split; intros w; cbn; intuition discriminate.
      * destruct (negb (isFetchingAiPath s)); cbn; rewrite ?Hnav; repeat split;
          intros w; cbn; intuition discriminate.
Qed.

Lemma C7_arrival_threshold_witness :
  (let s' := render navigating
               (processGpsLocation first_copy navigating (geo_of pixel_near) None) in
   isNavigatingWithGps s' = false /\ gpsWatchId s' = None /\ path s' = None
   /\ gpsStatus s' = "Arrived at E1!"%string)
  /\ (let s' := render navigating
                  (processGpsLocation first_copy navigating (geo_of pixel_far) None) in
      isNavigatingWithGps s' = true /\ gpsWatchId s' = Some 7%nat
      /\ gpsStatus s' = "Navigating to E1... User location updated by GPS."%string).
Proof.
  assert (Hw : width (dimensions scenario_plan) <> 0) by (simpl; lra).
  assert (Hb : proper_bounds FLOOR_PLAN_GEO_BOUNDS) by (unfold proper_bounds; simpl; lra).
  assert (Hnear : mapGeoToPixel (geo_of pixel_near) FLOOR_PLAN_GEO_BOUNDS
                    (dimensions scenario_plan) = Some pixel_near).
  { destruct (pixel_geo_pixel pixel_near FLOOR_PLAN_GEO_BOUNDS scenario_dims)
      as (g & Hg & _ & Hback); [unfold inside_image; simpl; lra | exact Hb |].
    injection Hg as <-. exact Hback. }
  assert (Hfar : mapGeoToPixel (geo_of pixel_far) FLOOR_PLAN_GEO_BOUNDS
                   (dimensions scenario_plan) = Some pixel_far).
  { destruct (pixel_geo_pixel pixel_far FLOOR_PLAN_GEO_BOUNDS scenario_dims)
      as (g & Hg & _ & Hback); [unfold inside_image; simpl; lra | exact Hb |].
    injection Hg as <-. exact Hback. }
  split.
  - destruct (C7_arrival_threshold first_copy navigating scenario_plan E1
                (geo_of pixel_near) None pixel_near eq_refl Hw eq_refl eq_refl Hnear)
      as (_ & Harrive & _).
    destruct Harrive as (H1 & H2 & _ & H4 & H5 & _).
    + apply calculateDistance_below; [unfold ARRIVAL_THRESHOLD_PIXELS; lra |].
      unfold ARRIVAL_THRESHOLD_PIXELS; simpl; lra.
    + repeat split; assumption.
  - destruct (C7_arrival_threshold first_copy navigating scenario_plan E1
                (geo_of pixel_far) None pixel_far eq_refl Hw eq_refl eq_refl Hfar)
      as (_ & _ & Hstay).
    destruct Hstay as (H1 & H2 & _ & H4 & _).
    + apply calculateDistance_not_below; [unfold ARRIVAL_THRESHOLD_PIXELS; lra |].
      unfold ARRIVAL_THRESHOLD_PIXELS; simpl; lra.
    + repeat split; assumption.
Defined.

(** ** The path request as the triggers issue it *)






(** The drifted endpoints of the example response are overwritten. *)
Example drifted_endpoints_overwritten :
  path (render idle (fetch_settle first_copy scenario_user E1 (Parsed drifted)))
  = Some [scenario_user; {| x := 400; y := 100 |}; location E1].
Proof. reflexivity. Qed.





Lemma geo_of_projects (p : Point) :
  inside_image p scenario_dims ->
  mapGeoToPixel (geo_of p) FLOOR_PLAN_GEO_BOUNDS scenario_dims = Some p.
Proof.
  intro Hin.
  destruct (pixel_geo_pixel p FLOOR_PLAN_GEO_BOUNDS scenario_dims Hin)
    as (g & Hg & _ & Hback); [unfold proper_bounds; simpl; lra |].
  injection Hg as <-. exact Hback.
Qed.


(** After an arrival the effect redraws no line as long as instructions are
    on display or a request is pending. *)
Lemma arrival_survives_effect (s' : State) :
  path s' = None ->
  selectedElevator s' <> None ->
  isFetchingAiPath s' = true \/ aiPathInstructions s' <> None ->
  path (render s' (nearestEffect s')) = None.
Proof.
  intros Hp Hs Hi. unfold nearestEffect.
  destruct (userLocation s'), (currentFloorPlan s'), (selectedElevator s');
    try (contradiction Hs; reflexivity);
    destruct (isFetchingAiPath s'); cbn; try exact Hp; try reflexivity;
    destruct (aiPathInstructions s'); cbn; try exact Hp;
    destruct Hi as [Hi | Hi]; try discriminate Hi; contradiction Hi; reflexivity.
Qed.

(** * Further properties of the geometry *)

Lemma dot_le_norms (u1 u2 v1 v2 : R) :
  u1 * v1 + u2 * v2 <= sqrt (u1 ^ 2 + u2 ^ 2) * sqrt (v1 ^ 2 + v2 ^ 2).
Proof.
  rewrite <- sqrt_mult by (apply Rplus_le_le_0_compat; apply pow2_ge_0).
  destruct (Rle_lt_dec (u1 * v1 + u2 * v2) 0) as [Hneg | Hpos].
  - apply Rle_trans with 0; [exact Hneg | apply sqrt_pos].
  - rewrite <- (sqrt_pow2 (u1 * v1 + u2 * v2)) by lra.
    apply sqrt_le_1_alt.
    assert (H : 0 <= (u1 * v2 - u2 * v1) ^ 2) by apply pow2_ge_0.
    nra.
Qed.

(** X1: [calculateDistance] is a metric on pixel points: it is never
    negative, it does not depend on the order of its arguments, it is zero
    exactly between a point and itself, and it obeys the triangle
    inequality. *)
Theorem calculateDistance_metric (a b c : Point) :
  0 <= calculateDistance a b
  /\ calculateDistance a b = calculateDistance b a
  /\ (calculateDistance a b = 0 <-> a = b)
  /\ calculateDistance a c <= calculateDistance a b + calculateDistance b c.
Proof.
  unfold calculateDistance.
  split; [apply sqrt_pos |].
  split; [f_equal; ring |].
  split.
  - split.
    + intro H. apply sqrt_eq_0 in H;
        [| apply Rplus_le_le_0_compat; apply pow2_ge_0].
      assert (Hx : 0 <= (x a - x b) ^ 2) by apply pow2_ge_0.
      assert (Hy : 0 <= (y a - y b) ^ 2) by apply pow2_ge_0.
      assert (Ex : x a = x b) by nra.
      assert (Ey : y a = y b) by nra.
      destruct a, b; simpl in *; subst; reflexivity.
    + intros ->. replace ((x b - x b) ^ 2 + (y b - y b) ^ 2) with 0 by ring.
      apply sqrt_0.
  - set (u1 := x a - x b). set (u2 := y a - y b).
    set (v1 := x b - x c). set (v2 := y b - y c).
    replace (x a - x c) with (u1 + v1) by (unfold u1, v1; ring).
    replace (y a - y c) with (u2 + v2) by (unfold u2, v2; ring).
    apply Rsqr_incr_0_var;
      [| apply Rplus_le_le_0_compat; apply sqrt_pos].
    rewrite Rsqr_sqrt by (apply Rplus_le_le_0_compat; apply pow2_ge_0).
    rewrite Rsqr_plus.
    rewrite !Rsqr_sqrt by (apply Rplus_le_le_0_compat; apply pow2_ge_0).
    pose proof (dot_le_norms u1 u2 v1 v2) as H.
    nra.
Qed.

(** X2: [mapRange] on a collapsed input range returns the midpoint of the
    output range whatever the value; on a proper input range it sends the ends
    to the ends and the middle to the middle, keeps the order of values when
    both ranges ascend, and is undone by the mapping in the other direction. *)
Theorem mapRange_spec :
  (forall v a c d, mapRange v a a c d = (c + d) / 2)
  /\ (forall a b c d, a <> b ->
        mapRange a a b c d = c
        /\ mapRange b a b c d = d
        /\ mapRange ((a + b) / 2) a b c d = (c + d) / 2)
  /\ (forall v v' a b c d, a < b -> c <= d -> v <= v' ->
        mapRange v a b c d <= mapRange v' a b c d)
  /\ (forall v a b c d, a <> b -> c <> d ->
        mapRange (mapRange v a b c d) c d a b = v).
Proof.
  split; [| split; [| split]].
  - intros v a c d. unfold mapRange. rewrite Reqb_true by reflexivity. reflexivity.
  - intros a b c d Hab. rewrite !mapRange_linear by exact Hab.
    repeat split; field; lra.
  - intros v v' a b c d Hab Hcd Hv.
    rewrite !mapRange_affine by lra.
    apply Rplus_le_compat_l. apply Rmult_le_compat_r; [lra |].
    unfold Rdiv. apply Rmult_le_compat_r; [| lra].
    left. apply Rinv_0_lt_compat. lra.
  - intros. apply mapRange_inverse; assumption.
Qed.

Lemma mapRange_spec_witness :
  mapRange 5 0 10 0 800 = 400
  /\ mapRange 2 0 10 0 800 <= mapRange 7 0 10 0 800
  /\ mapRange (mapRange 7 0 10 0 800) 0 800 0 10 = 7.
Proof.
  destruct mapRange_spec as (_ & Hends & Hmono & Hinv).
  split; [| split].
  - destruct (Hends 0 10 0 800) as (_ & _ & Hmid); [lra |].
    replace 5 with ((0 + 10) / 2) by field.
    rewrite Hmid. field.
  - apply Hmono; lra.
  - apply Hinv; lra.
Defined.

Lemma clamp_range (v w : R) : 0 <= w -> 0 <= Rmax 0 (Rmin v w) <= w.
Proof.
  intro Hw. split; [apply Rmax_l |].
  apply Rmax_lub; [exact Hw | apply Rmin_r].
Qed.

(** X3: whenever [mapGeoToPixel] returns a pixel, the pixel lies in the image
    rectangle [0, width] x [0, height], for any bounds, degenerate ones
    included. *)
Theorem mapGeoToPixel_in_image (g : GeoPoint) (bounds : GeoBounds) (d : Dimensions)
    (p : Point) :
  0 <= width d -> 0 <= height d ->
  mapGeoToPixel g bounds d = Some p ->
  0 <= x p <= width d /\ 0 <= y p <= height d.
Proof.
  intros Hw Hh H. unfold mapGeoToPixel in H.
  destruct (_ || _) in H; [discriminate H |].
  injection H as <-. simpl. split; apply clamp_range; assumption.
Qed.

Lemma mapGeoToPixel_in_image_witness :
  0 <= x {| x := 400; y := 1000 / 3 |} <= width scenario_dims
  /\ 0 <= y {| x := 400; y := 1000 / 3 |} <= height scenario_dims.
Proof.
  apply (mapGeoToPixel_in_image scenario_fix FLOOR_PLAN_GEO_BOUNDS scenario_dims).
  - simpl; lra.
  - simpl; lra.
  - unfold mapGeoToPixel, scenario_fix, FLOOR_PLAN_GEO_BOUNDS, scenario_dims, Rgtb; simpl.
    rewrite !Rltb_false by lra; simpl.
    rewrite !mapRange_linear by lra.
    f_equal; f_equal.
    + replace (_ / _ + 0) with 400 by field. apply clamp_inside. lra.
    + replace (_ / _ + 0) with (1000 / 3) by field. apply clamp_inside. lra.
Defined.

(** X4: [mapGeoToPixel] returns none exactly for the points outside the
    bounds rectangle (north of the north-west corner, south of the south-east
    one, west of the former or east of the latter); points on the edge are
    projected. *)
Theorem mapGeoToPixel_rejects_outside (g : GeoPoint) (bounds : GeoBounds)
    (d : Dimensions) :
  (mapGeoToPixel g bounds d = None
   <-> (latitude g > latitude (northWest bounds)
        \/ latitude g < latitude (southEast bounds)
        \/ longitude g < longitude (northWest bounds)
        \/ longitude g > longitude (southEast bounds)))
  /\ (latitude (southEast bounds) <= latitude g <= latitude (northWest bounds) ->
      longitude (northWest bounds) <= longitude g <= longitude (southEast bounds) ->
      exists p, mapGeoToPixel g bounds d = Some p).
Proof.
  split; [apply mapGeoToPixel_none_iff |].
  intros Hlat Hlon.
  destruct (mapGeoToPixel g bounds d) as [p |] eqn:E; [exists p; reflexivity |].
  apply mapGeoToPixel_none_iff in E. lra.
Qed.

Lemma mapGeoToPixel_rejects_outside_witness :
  mapGeoToPixel fix_outside FLOOR_PLAN_GEO_BOUNDS scenario_dims = None
  /\ exists p, mapGeoToPixel (northWest FLOOR_PLAN_GEO_BOUNDS) FLOOR_PLAN_GEO_BOUNDS
                 scenario_dims = Some p.
Proof.
  split.
  - apply (proj1 (mapGeoToPixel_rejects_outside fix_outside FLOOR_PLAN_GEO_BOUNDS
                    scenario_dims)).
    left. simpl. lra.
  - apply (proj2 (mapGeoToPixel_rejects_outside (northWest FLOOR_PLAN_GEO_BOUNDS)
                    FLOOR_PLAN_GEO_BOUNDS scenario_dims)); simpl; lra.
Defined.

(** X5: the corners correspond, as the comments on the bounds constant say:
    with the north-west corner north and west of the south-east one,
    [mapGeoToPixel] sends the north-west corner to pixel (0, 0) and the
    south-east corner to (width, height), and on an image with non-zero sides
    [mapPixelToGeo] sends those pixels back to the corners. *)
Theorem corners_correspond (bounds : GeoBounds) (d : Dimensions) :
  proper_bounds bounds ->
  (0 <= width d -> 0 <= height d ->
   mapGeoToPixel (northWest bounds) bounds d = Some {| x := 0; y := 0 |}
   /\ mapGeoToPixel (southEast bounds) bounds d
      = Some {| x := width d; y := height d |})
  /\ (width d <> 0 -> height d <> 0 ->
      mapPixelToGeo {| x := 0; y := 0 |} bounds d = Some (northWest bounds)
      /\ mapPixelToGeo {| x := width d; y := height d |} bounds d
         = Some (southEast bounds)).
Proof.
  intros [Hlat Hlon]. split.
  - intros Hw Hh. unfold mapGeoToPixel, Rgtb.
    rewrite !Rltb_false by lra. cbn [orb].
    rewrite !mapRange_linear by lra.
    split; f_equal; f_equal.
    + replace (_ / _ + 0) with 0 by (field; lra).
      rewrite Rmin_left by lra. apply Rmax_left. lra.
    + replace (_ / _ + 0) with 0 by (field; lra).
      rewrite Rmin_left by lra. apply Rmax_left. lra.
    + replace (_ / _ + 0) with (width d) by (field; lra).
      rewrite Rmin_left by lra. apply Rmax_right. lra.
    + replace (_ / _ + 0) with (height d) by (field; lra).
      rewrite Rmin_left by lra. apply Rmax_right. lra.
  - intros Hw Hh. unfold mapPixelToGeo. cbn [x y].
    rewrite !mapRange_linear by (intro E; symmetry in E; contradiction).
    split.
    + destruct (northWest bounds) as [la lo]. cbn [latitude longitude].
      f_equal. f_equal; field; assumption.
    + destruct (southEast bounds) as [la lo]. cbn [latitude longitude].
      f_equal. f_equal; field; assumption.
Qed.

Lemma corners_correspond_witness :
  mapGeoToPixel (southEast FLOOR_PLAN_GEO_BOUNDS) FLOOR_PLAN_GEO_BOUNDS scenario_dims
  = Some {| x := 800; y := 600 |}
  /\ mapPixelToGeo {| x := 0; y := 0 |} FLOOR_PLAN_GEO_BOUNDS scenario_dims
     = Some (northWest FLOOR_PLAN_GEO_BOUNDS).
Proof.
  assert (Hb : proper_bounds FLOOR_PLAN_GEO_BOUNDS) by (unfold proper_bounds; simpl; lra).
  destruct (corners_correspond FLOOR_PLAN_GEO_BOUNDS scenario_dims Hb) as [Hgeo Hpix].
  split.
  - apply Hgeo; simpl; lra.
  - apply Hpix; simpl; lra.
Defined.

Lemma mapRange_before (v w a b : R) :
  0 < w -> a < b -> v < 0 -> mapRange v 0 w a b < a.
Proof.
  intros Hw Hab Hv. rewrite mapRange_affine by lra.
  assert (Ht : (v - 0) / (w - 0) * (w - 0) = v - 0) by (field; lra).
  set (t := (v - 0) / (w - 0)) in *. nra.
Qed.

Lemma mapRange_after (v w a b : R) :
  0 < w -> a < b -> w < v -> b < mapRange v 0 w a b.
Proof.
  intros Hw Hab Hv. rewrite mapRange_affine by lra.
  assert (Ht : (v - 0) / (w - 0) * (w - 0) = v - 0) by (field; lra).
  set (t := (v - 0) / (w - 0)) in *. nra.
Qed.

Lemma mapRange_before_desc (v w a b : R) :
  0 < w -> b < a -> v < 0 -> a < mapRange v 0 w a b.
Proof.
  intros Hw Hab Hv. rewrite mapRange_affine by lra.
  assert (Ht : (v - 0) / (w - 0) * (w - 0) = v - 0) by (field; lra).
  set (t := (v - 0) / (w - 0)) in *. nra.
Qed.

Lemma mapRange_after_desc (v w a b : R) :
  0 < w -> b < a -> w < v -> mapRange v 0 w a b < b.
Proof.
  intros Hw Hab Hv. rewrite mapRange_affine by lra.
  assert (Ht : (v - 0) / (w - 0) * (w - 0) = v - 0) by (field; lra).
  set (t := (v - 0) / (w - 0)) in *. nra.
Qed.

(** X6: [mapPixelToGeo] does not reject a pixel outside the image: it
    extrapolates it to a geographic point outside the bounds rectangle, which
    [mapGeoToPixel] in turn rejects.  So an elevator drawn off the image has
    an estimated position but no way back onto the plan. *)
Theorem offimage_pixel_extrapolated (p : Point) (bounds : GeoBounds) (d : Dimensions) :
  proper_bounds bounds -> 0 < width d -> 0 < height d ->
  x p < 0 \/ width d < x p \/ y p < 0 \/ height d < y p ->
  exists g, mapPixelToGeo p bounds d = Some g
            /\ ~ (latitude (southEast bounds) <= latitude g <= latitude (northWest bounds)
                  /\ longitude (northWest bounds) <= longitude g
                     <= longitude (southEast bounds))
            /\ mapGeoToPixel g bounds d = None.
Proof.
  intros [Hlat Hlon] Hw Hh Hout.
  eexists. split; [reflexivity |].
  assert (Hside :
            mapRange (y p) 0 (height d) (latitude (northWest bounds))
              (latitude (southEast bounds)) > latitude (northWest bounds)
            \/ mapRange (y p) 0 (height d) (latitude (northWest bounds))
                 (latitude (southEast bounds)) < latitude (southEast bounds)
            \/ mapRange (x p) 0 (width d) (longitude (northWest bounds))
                 (longitude (southEast bounds)) < longitude (northWest bounds)
            \/ mapRange (x p) 0 (width d) (longitude (northWest bounds))
                 (longitude (southEast bounds)) > longitude (southEast bounds)).
  { destruct Hout as [H | [H | [H | H]]].
    - right. right. left. apply mapRange_before; assumption.
    - right. right. right. apply mapRange_after; assumption.
    - left. apply mapRange_before_desc; assumption.
    - right. left. apply mapRange_after_desc; assumption. }
  split.
  - cbn [latitude longitude]. lra.
  - apply mapGeoToPixel_none_iff. cbn [latitude longitude]. exact Hside.
Qed.

Lemma offimage_pixel_extrapolated_witness :
  exists g, mapPixelToGeo {| x := 900; y := 300 |} FLOOR_PLAN_GEO_BOUNDS scenario_dims
            = Some g
            /\ mapGeoToPixel g FLOOR_PLAN_GEO_BOUNDS scenario_dims = None.
Proof.
  destruct (offimage_pixel_extrapolated {| x := 900; y := 300 |} FLOOR_PLAN_GEO_BOUNDS
              scenario_dims) as (g & Hg & _ & Hnone).
  - unfold proper_bounds; simpl; lra.
  - simpl; lra.
  - simpl; lra.
  - right. left. simpl. lra.
  - exists g. split; assumption.
Defined.

(** X7: the degenerate-bounds policy.  When the bounds collapse in latitude
    every projected fix is put at half the image height, and when they
    collapse in longitude at half the width; when the image has zero width
    [mapPixelToGeo] answers the middle longitude, and with zero height the
    middle latitude.  Nothing is divided by zero. *)
Theorem degenerate_ranges_give_midpoints (bounds : GeoBounds) (d : Dimensions) :
  (forall g p, latitude (northWest bounds) = latitude (southEast bounds) ->
     0 <= height d ->
     mapGeoToPixel g bounds d = Some p -> y p = height d / 2)
  /\ (forall g p, longitude (northWest bounds) = longitude (southEast bounds) ->
        0 <= width d ->
        mapGeoToPixel g bounds d = Some p -> x p = width d / 2)
  /\ (forall p g, width d = 0 ->
        mapPixelToGeo p bounds d = Some g ->
        longitude g
        = (longitude (northWest bounds) + longitude (southEast bounds)) / 2)
  /\ (forall p g, height d = 0 ->
        mapPixelToGeo p bounds d = Some g ->
        latitude g
        = (latitude (northWest bounds) + latitude (southEast bounds)) / 2).
Proof.
  split; [| split; [| split]].
  - intros g p E Hh H. unfold mapGeoToPixel in H.
    destruct (_ || _) in H; [discriminate H |].
    injection H as <-. cbn [y]. unfold mapRange at 1.
    rewrite (Reqb_true _ _ E).
    replace ((0 + height d) / 2) with (height d / 2) by field.
    rewrite Rmin_left by lra. apply Rmax_right. lra.
  - intros g p E Hw H. unfold mapGeoToPixel in H.
    destruct (_ || _) in H; [discriminate H |].
    injection H as <-. cbn [x]. unfold mapRange at 1.
    rewrite (Reqb_true _ _ E).
    replace ((0 + width d) / 2) with (width d / 2) by field.
    rewrite Rmin_left by lra. apply Rmax_right. lra.
  - intros p g E H. unfold mapPixelToGeo in H. injection H as <-.
    cbn [longitude]. unfold mapRange. rewrite Reqb_true by (symmetry; exact E).
    reflexivity.
  - intros p g E H. unfold mapPixelToGeo in H. injection H as <-.
    cbn [latitude]. unfold mapRange. rewrite Reqb_true by (symmetry; exact E).
    reflexivity.
Qed.

Lemma degenerate_ranges_give_midpoints_witness :
  exists g,
    mapPixelToGeo scenario_pixel FLOOR_PLAN_GEO_BOUNDS {| width := 0; height := 600 |}
    = Some g
    /\ longitude g
       = (longitude (northWest FLOOR_PLAN_GEO_BOUNDS)
          + longitude (southEast FLOOR_PLAN_GEO_BOUNDS)) / 2.
Proof.
  destruct (degenerate_ranges_give_midpoints FLOOR_PLAN_GEO_BOUNDS
              {| width := 0; height := 600 |}) as (_ & _ & Hlon & _).
  eexists. split; [reflexivity |].
  apply (Hlon scenario_pixel); reflexivity.
Defined.

(** * Further properties of the coordinator *)

Lemma stop_frame (s : State) (message : option string) :
  let s' := render s (stopGpsNavigation s message) in
  isNavigatingWithGps s' = false
  /\ gpsWatchId s' = None
  /\ userLocation s' = userLocation s
  /\ selectedElevator s' = selectedElevator s
  /\ path s' = path s
  /\ aiPathInstructions s' = aiPathInstructions s
  /\ isFetchingAiPath s' = isFetchingAiPath s
  /\ currentFloorPlan s' = currentFloorPlan s.
Proof.
  unfold stopGpsNavigation.
  destruct (gpsWatchId s) eqn:E; cbn; repeat split; assumption.
Qed.

Lemma stop_clearWatch (s : State) (message : option string) (w : nat) :
  In (clearWatch w) (stopGpsNavigation s message) <-> gpsWatchId s = Some w.
Proof.
  unfold stopGpsNavigation. destruct (gpsWatchId s) as [w0 |]; cbn; split.
  - intros [H | [H | [H | [H | H]]]]; try discriminate H; try contradiction H.
    injection H as <-. reflexivity.
  - intro H. injection H as <-. right. left. reflexivity.
  - intros [H | [H | H]]; try discriminate H; contradiction H.
  - intro H. discriminate H.
Qed.

Lemma stop_status (s : State) (message : option string) :
  gpsStatus (render s (stopGpsNavigation s message))
  = match given message with
    | Some m => m
    | None =>
        match selectedElevator s with
        | Some e => ("GPS navigation to " ++ name e ++ " cancelled.")%string
        | None =>
            match currentFloorPlan s with
            | Some _ => "GPS navigation stopped. Click map or an elevator to restart."%string
            | None => initialAppStatus
            end
        end
    end.
Proof.
  unfold stopGpsNavigation. destruct (gpsWatchId s); reflexivity.
Qed.

(** X8: stopping the navigation switches the navigation flag off, drops the
    watch handle and calls [clearWatch] exactly for a stored handle; it leaves
    the user location, the target, the path, the instructions and the pending
    flag as they were and issues no request.  The status is the message when
    one is given, otherwise the cancellation text for the target, otherwise
    the text for a loaded plan, otherwise the initial text. *)
Theorem stopGpsNavigation_effect (s : State) (message : option string) :
  let acts := stopGpsNavigation s message in
  let s' := render s acts in
  isNavigatingWithGps s' = false
  /\ gpsWatchId s' = None
  /\ (forall w, In (clearWatch w) acts <-> gpsWatchId s = Some w)
  /\ userLocation s' = userLocation s
  /\ selectedElevator s' = selectedElevator s
  /\ path s' = path s
  /\ aiPathInstructions s' = aiPathInstructions s
  /\ isFetchingAiPath s' = isFetchingAiPath s
  /\ currentFloorPlan s' = currentFloorPlan s
  /\ issued acts = []
  /\ (forall m, given message = Some m -> gpsStatus s' = m)
  /\ (given message = None ->
      gpsStatus s'
      = match selectedElevator s with
        | Some e => ("GPS navigation to " ++ name e ++ " cancelled.")%string
        | None =>
            match currentFloorPlan s with
            | Some _ => "GPS navigation stopped. Click map or an elevator to restart."%string
            | None => initialAppStatus
            end
        end).
Proof.
  intros acts s'. subst s' acts.
  split; [apply stop_frame |]. split; [apply stop_frame |].
  split; [apply stop_clearWatch |].
  split; [apply stop_frame |]. split; [apply stop_frame |].
  split; [apply stop_frame |]. split; [apply stop_frame |].
  split; [apply stop_frame |]. split; [apply stop_frame |].
  split; [apply stop_keeps_flag |].
  split.
  - intros m H. rewrite stop_status, H. reflexivity.
  - intro H. rewrite stop_status, H. reflexivity.
Qed.

Lemma stopGpsNavigation_effect_witness :
  gpsStatus (render navigating (stopGpsNavigation navigating None))
  = "GPS navigation to E1 cancelled."%string
  /\ gpsStatus (render navigating (stopGpsNavigation navigating (Some "GPS lost"%string)))
     = "GPS lost"%string.
Proof.
  split.
  - apply (stopGpsNavigation_effect navigating None). reflexivity.
  - apply (stopGpsNavigation_effect navigating (Some "GPS lost"%string)). reflexivity.
Defined.

Lemma reset_state (s : State) (statusMessage : option string) :
  render s (resetAllLocationsAndSelections s statusMessage)
  = {| currentFloorPlan := currentFloorPlan s;
       userLocation := None; userGeoLocation := None;
       gpsStatus := match given statusMessage with
                    | Some m => m
                    | None =>
                        match currentFloorPlan s with
                        | Some _ =>
                            "Location cleared. Click map or an elevator to start."%string
                        | None => initialAppStatus
                        end
                    end;
       isGpsDerived := false; isAnalyzingPlan := isAnalyzingPlan s;
       nearestElevator := None; selectedElevator := None; path := None;
       aiPathInstructions := None; isFetchingAiPath := false;
       isNavigatingWithGps := false; targetElevatorGps := None;
       gpsWatchId := None |}.
Proof.
  unfold resetAllLocationsAndSelections, stopGpsNavigation.
  destruct (gpsWatchId s) as [w0 |] eqn:Ew; cbn; rewrite ?Ew; reflexivity.
Qed.

(** X9: clearing the location empties the whole navigation state whatever it
    was: no user location, no geographic fix, no nearest or selected elevator,
    no path, no instructions, no estimate for the target, the pending flag,
    the live flag and the navigation flag off and the watch handle dropped
    (with [clearWatch] called for a stored handle).  The plan is kept.  The
    status set inside by [stopGpsNavigation] is overwritten: what remains is
    the message given, or the text that depends on whether a plan is loaded.
    Clearing a second time changes nothing. *)
Theorem reset_clears_navigation_state (s : State) (statusMessage : option string) :
  let acts := resetAllLocationsAndSelections s statusMessage in
  let s' := render s acts in
  s' = {| currentFloorPlan := currentFloorPlan s;
          userLocation := None; userGeoLocation := None;
          gpsStatus := match given statusMessage with
                       | Some m => m
                       | None =>
                           match currentFloorPlan s with
                           | Some _ =>
                               "Location cleared. Click map or an elevator to start."%string
                           | None => initialAppStatus
                           end
                       end;
          isGpsDerived := false; isAnalyzingPlan := isAnalyzingPlan s;
          nearestElevator := None; selectedElevator := None; path := None;
          aiPathInstructions := None; isFetchingAiPath := false;
          isNavigatingWithGps := false; targetElevatorGps := None;
          gpsWatchId := None |}
  /\ (forall w, In (clearWatch w) acts <-> gpsWatchId s = Some w)
  /\ issued acts = []
  /\ render s' (resetAllLocationsAndSelections s' statusMessage) = s'.
Proof.
  intros acts s'.
  assert (Hs' := reset_state s statusMessage). fold acts in Hs'. fold s' in Hs'.
  split; [exact Hs' |].
  split; [| split].
  - intro w. subst acts. unfold resetAllLocationsAndSelections.
    rewrite <- (stop_clearWatch s None w).
    split.
    + intro H. apply in_app_or in H. destruct H as [H | H].
      * cbn in H. repeat (destruct H as [H | H]; try discriminate H). contradiction H.
      * apply in_app_or in H. destruct H as [H | H]; [exact H |].
        cbn in H. repeat (destruct H as [H | H]; try discriminate H). contradiction H.
    + intro H. apply in_or_app. right. apply in_or_app. left. exact H.
  - subst acts. unfold resetAllLocationsAndSelections, stopGpsNavigation.
    destruct (gpsWatchId s); reflexivity.
  - rewrite Hs'. reflexivity.
Qed.

(** X10: a map tap on a plan without elevators (and with nothing pending)
    stores the tapped point as the user location, leaves no target, no path
    and no estimate, does not start the navigation, issues no request and
    reports that no elevators are defined. *)
Theorem tap_without_elevators (env : Env) (s : State) (plan : FloorPlan) (point : Point) :
  currentFloorPlan s = Some plan ->
  isAnalyzingPlan s = false ->
  isFetchingAiPath s = false ->
  elevators plan = [] ->
  let acts := handleManualMapClick env s point in
  let s' := render s acts in
  userLocation s' = Some point
  /\ isGpsDerived s' = false
  /\ selectedElevator s' = None
  /\ path s' = None
  /\ aiPathInstructions s' = None
  /\ targetElevatorGps s' = None
  /\ isNavigatingWithGps s' = false
  /\ gpsWatchId s' = None
  /\ issued acts = []
  /\ gpsStatus s'
     = "Location set manually. No elevators found or defined for this plan."%string.
Proof.
  intros Hplan Han Hf Hnone acts s'. subst s' acts.
  unfold handleManualMapClick, stopGpsNavigation.
  rewrite Hplan, Han, Hf, Hnone.
  change (findNearestElevator point []) with (@None Elevator).
  destruct (gpsWatchId s) eqn:Ew; cbn; rewrite ?Ew; repeat split.
Qed.

Lemma tap_without_elevators_witness :
  let s0 := mkState (Some empty_plan) None None initialAppStatus false false None None
              None None false false None None in
  userLocation (render s0 (handleManualMapClick first_copy s0 scenario_user))
  = Some scenario_user
  /\ selectedElevator (render s0 (handleManualMapClick first_copy s0 scenario_user)) = None
  /\ path (render s0 (handleManualMapClick first_copy s0 scenario_user)) = None.
Proof.
  intros s0.
  destruct (tap_without_elevators first_copy s0 empty_plan scenario_user
              eq_refl eq_refl eq_refl eq_refl) as (Hu & _ & Hs & Hp & _).
  repeat split; assumption.
Defined.

(** X11: a map tap on a plan with elevators (nothing pending) stores the
    tapped point as a manual user location, selects as target an elevator of
    the plan that no other elevator is nearer than, estimates its geographic
    position and switches the navigation on.  Either the request for exactly
    this start, target and plan goes out (pending flag set, no path and no
    instructions for now), or, with no backend available, the straight line
    and the one-line notice are stored at once. *)
Theorem tap_selects_nearest (env : Env) (s : State) (plan : FloorPlan) (point : Point) :
  currentFloorPlan s = Some plan ->
  isAnalyzingPlan s = false ->
  isFetchingAiPath s = false ->
  elevators plan <> [] ->
  let acts := handleManualMapClick env s point in
  let s' := render s acts in
  exists nearest,
    findNearestElevator point (elevators plan) = Some nearest
    /\ In nearest (elevators plan)
    /\ (forall e, In e (elevators plan) ->
          calculateDistance point (location nearest)
          <= calculateDistance point (location e))
    /\ userLocation s' = Some point
    /\ isGpsDerived s' = false
    /\ selectedElevator s' = Some nearest
    /\ isNavigatingWithGps s' = true
    /\ targetElevatorGps s'
       = mapPixelToGeo (location nearest) FLOOR_PLAN_GEO_BOUNDS (dimensions plan)
    /\ ((issued acts = [mkRequest point nearest plan]
         /\ isFetchingAiPath s' = true /\ path s' = None
         /\ aiPathInstructions s' = None)
        \/ (issued acts = []
            /\ isFetchingAiPath s' = false
            /\ path s' = Some [point; location nearest]
            /\ aiPathInstructions s'
               = Some ["AI pathfinding is currently unavailable."%string])).
Proof.
  intros Hplan Han Hf Hne acts s'. subst s' acts.
  destruct (findNearestElevator_is_min point (elevators plan) Hne)
    as (nearest & Enear & Hin & Hmin).
  exists nearest. split; [exact Enear |]. split; [exact Hin |]. split; [exact Hmin |].
  unfold handleManualMapClick, stopGpsNavigation, fetch_begin.
  rewrite Hplan, Han, Hf, Enear.
  destruct (gpsWatchId s) eqn:Ew;
    destruct (negb (ai env) || negb (truthy (imageUrl plan)));
    cbn; rewrite ?Hf; repeat split;
    first [left; repeat split; reflexivity | right; repeat split; reflexivity].
Qed.

Lemma tap_selects_nearest_witness :
  let s' := render idle (handleManualMapClick first_copy idle scenario_user) in
  userLocation s' = Some scenario_user
  /\ selectedElevator s' = Some E1
  /\ isNavigatingWithGps s' = true
  /\ isFetchingAiPath s' = true.
Proof.
  intro s'.
  assert (Hne : elevators scenario_plan <> []) by discriminate.
  destruct (tap_selects_nearest first_copy idle scenario_plan scenario_user
              eq_refl eq_refl eq_refl Hne)
    as (nearest & Enear & _ & _ & Hu & _ & Hs & Hn & _).
  assert (E : nearest = E1) by (cbv in Enear; injection Enear as <-; reflexivity).
  subst nearest. repeat split; assumption.
Defined.

(** X12: an elevator tap (plan loaded, nothing pending).  An id that no
    elevator of the plan carries changes nothing.  Otherwise the first
    elevator with that id becomes the target and its position is estimated;
    without a user location the path is cleared, the navigation stays off, no
    request goes out and the status asks for a location; with a user location
    the navigation is switched on and [fetchAiPathAndInstructions] is called
    for that location and that elevator. *)
Theorem elevator_tap_cases (env : Env) (s : State) (plan : FloorPlan)
    (elevatorId : string) :
  currentFloorPlan s = Some plan ->
  isAnalyzingPlan s = false ->
  isFetchingAiPath s = false ->
  let acts := handleElevatorClick env s elevatorId in
  let s' := render s acts in
  ((forall e, In e (elevators plan) -> id e <> elevatorId) -> acts = [])
  /\ (forall elevator,
        find (fun e => String.eqb (id e) elevatorId) (elevators plan) = Some elevator ->
        In elevator (elevators plan)
        /\ id elevator = elevatorId
        /\ selectedElevator s' = Some elevator
        /\ targetElevatorGps s'
           = mapPixelToGeo (location elevator) FLOOR_PLAN_GEO_BOUNDS (dimensions plan)
        /\ userLocation s' = userLocation s
        /\ (userLocation s = None ->
            path s' = None /\ isNavigatingWithGps s' = false
            /\ aiPathInstructions s' = None /\ issued acts = []
            /\ gpsStatus s'
               = targeting_status env elevator
                   (mapPixelToGeo (location elevator) FLOOR_PLAN_GEO_BOUNDS
                      (dimensions plan)))
        /\ (forall u, userLocation s = Some u ->
              isNavigatingWithGps s' = true
              /\ issued acts = issued (fetch_begin env u elevator plan)
              /\ path s' = path (render s (fetch_begin env u elevator plan))
              /\ isFetchingAiPath s'
                 = isFetchingAiPath (render s (fetch_begin env u elevator plan)))).
Proof.
  intros Hplan Han Hf acts s'. subst s' acts.
  unfold handleElevatorClick. rewrite Hplan, Han, Hf. cbn [orb].
  split.
  - intro Hno.
    destruct (List.length (elevators plan) =? 0)%nat; [reflexivity |]. cbn [orb].
    destruct (find (fun e => String.eqb (id e) elevatorId) (elevators plan))
      as [e |] eqn:E; [| reflexivity].
    apply find_some in E. destruct E as [Hin Heq].
    apply String.eqb_eq in Heq. contradiction (Hno e Hin Heq).
  - intros elevator Efind. rewrite Efind.
    pose proof (find_some _ _ Efind) as [Hin Heq].
    apply String.eqb_eq in Heq.
    assert (Hlen : (List.length (elevators plan) =? 0)%nat = false).
    { destruct (elevators plan); [contradiction Hin | reflexivity]. }
    rewrite Hlen. cbn [orb].
    split; [exact Hin |]. split; [exact Heq |].
    unfold stopGpsNavigation, fetch_begin.
    destruct (gpsWatchId s) eqn:Ew; destruct (userLocation s) as [u0 |] eqn:Eu;
      destruct (negb (ai env) || negb (truthy (imageUrl plan)));
      cbn; rewrite ?Eu; repeat split; congruence.
Qed.

Lemma elevator_tap_cases_witness :
  handleElevatorClick first_copy idle "E9" = []
  /\ selectedElevator (render idle (handleElevatorClick first_copy idle "E1")) = Some E1
  /\ isNavigatingWithGps (render idle (handleElevatorClick first_copy idle "E1")) = false
  /\ isNavigatingWithGps (render navigating (handleElevatorClick first_copy navigating "E1"))
     = true.
Proof.
  destruct (elevator_tap_cases first_copy idle scenario_plan "E9" eq_refl eq_refl eq_refl)
    as [Hunknown _].
  destruct (elevator_tap_cases first_copy idle scenario_plan "E1" eq_refl eq_refl eq_refl)
    as [_ Hidle].
  destruct (elevator_tap_cases first_copy navigating scenario_plan "E1"
              eq_refl eq_refl eq_refl) as [_ Hnav].
  split; [| split; [| split]].
  - apply Hunknown. intros e [<- | []]. discriminate.
  - destruct (Hidle E1 eq_refl) as (_ & _ & Hsel & _). exact Hsel.
  - destruct (Hidle E1 eq_refl) as (_ & _ & _ & _ & _ & Hnone & _).
    destruct (Hnone eq_refl) as (_ & Hoff & _). exact Hoff.
  - destruct (Hnav E1 eq_refl) as (_ & _ & _ & _ & _ & _ & Hsome).
    destruct (Hsome scenario_user eq_refl) as (Hon & _). exact Hon.
Defined.

(** X13: a fix that arrives while no plan is loaded, or while the plan has
    zero width, is not processed at all: not even the geographic fix is
    recorded; only the status changes. *)
Theorem fix_without_plan (env : Env) (s : State) (g : GeoPoint)
    (contextMessage : option string) :
  (currentFloorPlan s = None
   \/ exists plan, currentFloorPlan s = Some plan /\ width (dimensions plan) = 0) ->
  processGpsLocation env s g contextMessage
  = [setGpsStatus "Cannot process GPS location: Floor plan not fully loaded."]
  /\ userGeoLocation (render s (processGpsLocation env s g contextMessage))
     = userGeoLocation s
  /\ userLocation (render s (processGpsLocation env s g contextMessage))
     = userLocation s.
Proof.
  intros [Hnone | (plan & Hplan & Hw)]; unfold processGpsLocation.
  - rewrite Hnone. repeat split.
  - rewrite Hplan, (Reqb_true _ _ Hw). repeat split.
Qed.

Lemma fix_without_plan_witness :
  let s0 := mkState None None None initialAppStatus false false None None
              None None false false None None in
  processGpsLocation first_copy s0 scenario_fix None
  = [setGpsStatus "Cannot process GPS location: Floor plan not fully loaded."].
Proof.
  intro s0. apply (fix_without_plan first_copy s0 scenario_fix None). left. reflexivity.
Defined.

(** X14: during live navigation with instructions and a path on display, a
    fix that is not an arrival slides the start of the path to the new pixel:
    the remaining points, the instructions and the target stay, and no request
    is issued. *)
Theorem fix_slides_path_start (env : Env) (s : State) (plan : FloorPlan)
    (sel : Elevator) (g : GeoPoint) (contextMessage : option string)
    (p p0 : Point) (rest : list Point) (instructions : list string) :
  currentFloorPlan s = Some plan ->
  width (dimensions plan) <> 0 ->
  isNavigatingWithGps s = true ->
  selectedElevator s = Some sel ->
  aiPathInstructions s = Some instructions ->
  path s = Some (p0 :: rest) ->
  mapGeoToPixel g FLOOR_PLAN_GEO_BOUNDS (dimensions plan) = Some p ->
  ARRIVAL_THRESHOLD_PIXELS <= calculateDistance p (location sel) ->
  let acts := processGpsLocation env s g contextMessage in
  let s' := render s acts in
  path s' = Some (p :: rest)
  /\ userLocation s' = Some p
  /\ isGpsDerived s' = true
  /\ aiPathInstructions s' = Some instructions
  /\ selectedElevator s' = Some sel
  /\ isNavigatingWithGps s' = true
  /\ isFetchingAiPath s' = isFetchingAiPath s
  /\ issued acts = [].
Proof.
  intros Hplan Hw Hnav Hsel Hins Hpath Hpix Hd acts s'. subst s' acts.
  unfold processGpsLocation, located.
  rewrite Hplan, (Reqb_false _ _ Hw), Hpix, Hsel, Hnav, (Rltb_false _ _ Hd), Hins, Hpath.
  cbn. rewrite Hins, Hsel, Hnav. repeat split.
Qed.

Lemma fix_slides_path_start_witness :
  path (render navigating
          (processGpsLocation first_copy navigating (geo_of pixel_far) None))
  = Some [pixel_far; {| x := 400; y := 100 |}; location E1].
Proof.
  assert (Hw : width (dimensions scenario_plan) <> 0) by (simpl; lra).
  assert (Hfar : mapGeoToPixel (geo_of pixel_far) FLOOR_PLAN_GEO_BOUNDS
                   (dimensions scenario_plan) = Some pixel_far).
  { apply geo_of_projects. unfold inside_image; simpl; lra. }
  assert (Hd : ARRIVAL_THRESHOLD_PIXELS <= calculateDistance pixel_far (location E1)).
  { apply calculateDistance_not_below; unfold ARRIVAL_THRESHOLD_PIXELS; simpl; lra. }
  apply (fix_slides_path_start first_copy navigating scenario_plan E1 (geo_of pixel_far)
           None pixel_far scenario_user [ {| x := 400; y := 100 |}; location E1 ]
           ["Walk along the corridor."%string] eq_refl Hw eq_refl eq_refl eq_refl eq_refl
           Hfar Hd).
Defined.

(** X15: a fix that projects onto the plan while no target is selected and
    nothing is pending updates the live user location, recomputes the nearest
    elevator and, when there is one, shows the straight line to it; it never
    issues a path request and selects no target.  With no elevator on the plan
    the path is left as it was. *)
Theorem fix_without_target (env : Env) (s : State) (plan : FloorPlan) (g : GeoPoint)
    (contextMessage : option string) (p : Point) :
  currentFloorPlan s = Some plan ->
  width (dimensions plan) <> 0 ->
  selectedElevator s = None ->
  isFetchingAiPath s = false ->
  mapGeoToPixel g FLOOR_PLAN_GEO_BOUNDS (dimensions plan) = Some p ->
  let acts := processGpsLocation env s g contextMessage in
  let s' := render s acts in
  userLocation s' = Some p
  /\ userGeoLocation s' = Some g
  /\ isGpsDerived s' = true
  /\ nearestElevator s' = findNearestElevator p (elevators plan)
  /\ path s' = match findNearestElevator p (elevators plan) with
               | Some n => Some [p; location n]
               | None => path s
               end
  /\ selectedElevator s' = None
  /\ isNavigatingWithGps s' = isNavigatingWithGps s
  /\ isFetchingAiPath s' = false
  /\ issued acts = [].
Proof.
  intros Hplan Hw Hsel Hf Hpix acts s'. subst s' acts.
  unfold processGpsLocation, located.
  rewrite Hplan, (Reqb_false _ _ Hw), Hpix, Hsel, Hf.
  destruct (findNearestElevator p (elevators plan)); cbn;
    rewrite ?Hsel, ?Hf; repeat split.
Qed.

Lemma fix_without_target_witness :
  let s' := render idle (processGpsLocation first_copy idle (geo_of pixel_far) None) in
  nearestElevator s' = Some E1
  /\ path s' = Some [pixel_far; location E1]
  /\ issued (processGpsLocation first_copy idle (geo_of pixel_far) None) = [].
Proof.
  intro s'.
  assert (Hw : width (dimensions scenario_plan) <> 0) by (simpl; lra).
  assert (Hfar : mapGeoToPixel (geo_of pixel_far) FLOOR_PLAN_GEO_BOUNDS
                   (dimensions scenario_plan) = Some pixel_far).
  { apply geo_of_projects. unfold inside_image; simpl; lra. }
  destruct (fix_without_target first_copy idle scenario_plan (geo_of pixel_far) None
              pixel_far eq_refl Hw eq_refl eq_refl Hfar)
    as (_ & _ & _ & Hn & Hp & _ & _ & _ & Hi).
  repeat split; assumption.
Defined.

(** X16: the displacement threshold.  During live navigation with no
    instructions and nothing pending, a fix that is not an arrival calls
    [fetchAiPathAndInstructions] for the new pixel when there was no user
    location before or the user moved by more than twice the marker size
    (40 pixels); a smaller move issues no request and only draws the straight
    line from the new pixel to the target. *)
Theorem fix_displacement_threshold (env : Env) (s : State) (plan : FloorPlan)
    (sel : Elevator) (g : GeoPoint) (contextMessage : option string) (p : Point) :
  currentFloorPlan s = Some plan ->
  width (dimensions plan) <> 0 ->
  isNavigatingWithGps s = true ->
  selectedElevator s = Some sel ->
  aiPathInstructions s = None ->
  isFetchingAiPath s = false ->
  mapGeoToPixel g FLOOR_PLAN_GEO_BOUNDS (dimensions plan) = Some p ->
  ARRIVAL_THRESHOLD_PIXELS <= calculateDistance p (location sel) ->
  let acts := processGpsLocation env s g contextMessage in
  let s' := render s acts in
  MARKER_SIZE * 2 = 40
  /\ ((userLocation s = None
       \/ exists old, userLocation s = Some old /\ 40 < calculateDistance p old) ->
      issued acts = issued (fetch_begin env p sel plan)
      /\ path s' = path (render s (fetch_begin env p sel plan))
      /\ userLocation s' = Some p)
  /\ (forall old, userLocation s = Some old -> calculateDistance p old <= 40 ->
        issued acts = []
        /\ path s' = Some [p; location sel]
        /\ isFetchingAiPath s' = false
        /\ userLocation s' = Some p).
Proof.
  intros Hplan Hw Hnav Hsel Hins Hf Hpix Hd acts s'. subst s' acts.
  split; [unfold MARKER_SIZE; lra |].
  unfold processGpsLocation, located.
  rewrite Hplan, (Reqb_false _ _ Hw), Hpix, Hsel, Hnav, (Rltb_false _ _ Hd), Hins, Hf.
  cbn [is_some negb andb].
  split.
  - intro Hfar.
    assert (Hm : moved_far p (userLocation s) = true).
    { destruct Hfar as [Hnone | (old & Hold & Hdist)].
      - rewrite Hnone. reflexivity.
      - rewrite Hold. unfold moved_far, Rgtb. apply Rltb_true.
        unfold MARKER_SIZE. lra. }
    rewrite Hm. cbn [fst snd]. unfold fetch_begin.
    destruct (negb (ai env) || negb (truthy (imageUrl plan))); cbn; repeat split.
  - intros old Hold Hdist.
    assert (Hm : moved_far p (userLocation s) = false).
    { rewrite Hold. unfold moved_far, Rgtb. apply Rltb_false.
      unfold MARKER_SIZE. lra. }
    rewrite Hm. cbn. rewrite Hf. repeat split.
Qed.

Lemma calculateDistance_le_sqrt (p a : Point) (c : R) :
  (x p - x a) ^ 2 + (y p - y a) ^ 2 <= c -> calculateDistance p a <= sqrt c.
Proof. intro H. unfold calculateDistance. apply sqrt_le_1_alt. exact H. Qed.

Lemma calculateDistance_gt_sqrt (p a : Point) (c : R) :
  0 <= c -> c < (x p - x a) ^ 2 + (y p - y a) ^ 2 -> sqrt c < calculateDistance p a.
Proof.
  intros Hc H. unfold calculateDistance. apply sqrt_lt_1_alt. split; assumption.
Qed.

Lemma fix_displacement_threshold_witness :
  issued (processGpsLocation first_copy navigating_plain (geo_of pixel_step) None) = []
  /\ path (render navigating_plain
             (processGpsLocation first_copy navigating_plain (geo_of pixel_step) None))
     = Some [pixel_step; location E1]
  /\ issued (processGpsLocation first_copy navigating_plain (geo_of pixel_far) None)
     = [mkRequest pixel_far E1 scenario_plan].
Proof.
  assert (Hw : width (dimensions scenario_plan) <> 0) by (simpl; lra).
  assert (Hstep : mapGeoToPixel (geo_of pixel_step) FLOOR_PLAN_GEO_BOUNDS
                    (dimensions scenario_plan) = Some pixel_step).
  { apply geo_of_projects. unfold inside_image; simpl; lra. }
  assert (Hfar : mapGeoToPixel (geo_of pixel_far) FLOOR_PLAN_GEO_BOUNDS
                   (dimensions scenario_plan) = Some pixel_far).
  { apply geo_of_projects. unfold inside_image; simpl; lra. }
  assert (Hd1 : ARRIVAL_THRESHOLD_PIXELS <= calculateDistance pixel_step (location E1)).
  { apply calculateDistance_not_below; unfold ARRIVAL_THRESHOLD_PIXELS; simpl; lra. }
  assert (Hd2 : ARRIVAL_THRESHOLD_PIXELS <= calculateDistance pixel_far (location E1)).
  { apply calculateDistance_not_below; unfold ARRIVAL_THRESHOLD_PIXELS; simpl; lra. }
  destruct (fix_displacement_threshold first_copy navigating_plain scenario_plan E1
              (geo_of pixel_step) None pixel_step eq_refl Hw eq_refl eq_refl eq_refl
              eq_refl Hstep Hd1) as (_ & _ & Hnear).
  destruct (fix_displacement_threshold first_copy navigating_plain scenario_plan E1
              (geo_of pixel_far) None pixel_far eq_refl Hw eq_refl eq_refl eq_refl
              eq_refl Hfar Hd2) as (_ & Hmoved & _).
  assert (Hclose : calculateDistance pixel_step scenario_user <= 40).
  { replace 40 with (sqrt (40 ^ 2)) by (apply sqrt_pow2; lra).
    apply calculateDistance_le_sqrt. simpl. lra. }
  assert (Haway : 40 < calculateDistance pixel_far scenario_user).
  { replace 40 with (sqrt (40 ^ 2)) by (apply sqrt_pow2; lra).
    apply calculateDistance_gt_sqrt; simpl; lra. }
  destruct (Hnear scenario_user eq_refl Hclose) as (Hi & Hp & _).
  destruct (Hmoved (or_intror (ex_intro _ scenario_user (conj eq_refl Haway))))
    as (Hi2 & _).
  repeat split; assumption.
Defined.

Lemma array_set_cons_S {A : Type} (c : A) (a : list A) (i : nat) (v : A) :
  array_set (c :: a) (S i) v = c :: array_set a i v.
Proof. reflexivity. Qed.

Lemma nth_error_array_set {A : Type} (a : list A) :
  forall (i j : nat) (v : A),
    (i < List.length a)%nat ->
    nth_error (array_set a i v) j = if (j =? i)%nat then Some v else nth_error a j.
Proof.
  induction a as [| c a IH]; intros i j v Hi; [simpl in Hi; lia |].
  destruct i as [| i].
  - destruct j; reflexivity.
  - rewrite array_set_cons_S. destruct j as [| j]; [reflexivity |].
    simpl in Hi. cbn [nth_error]. rewrite IH by lia. reflexivity.
Qed.

Lemma length_array_set {A : Type} (a : list A) (i : nat) (v : A) :
  (i < List.length a)%nat -> List.length (array_set a i v) = List.length a.
Proof.
  intro Hi. unfold array_set.
  rewrite length_app, length_firstn. cbn [List.length]. rewrite length_skipn. lia.
Qed.

Lemma validatedPath_nth (coords : list Point) (u : Point) (t : Elevator) (i : nat) :
  (2 <= List.length coords)%nat ->
  nth_error (validatedPath coords u t) i
  = if (i =? List.length coords - 1)%nat then Some (location t)
    else if (i =? 0)%nat then Some u
    else nth_error coords i.
Proof.
  intro Hlen. unfold validatedPath.
  rewrite length_array_set by lia.
  rewrite nth_error_array_set by (rewrite length_array_set; lia).
  destruct (i =? List.length coords - 1)%nat; [reflexivity |].
  apply nth_error_array_set. lia.
Qed.

Lemma validatedPath_length (coords : list Point) (u : Point) (t : Elevator) :
  (2 <= List.length coords)%nat ->
  List.length (validatedPath coords u t) = List.length coords.
Proof.
  intro Hlen.
  destruct (validatedPath_endpoints coords u t Hlen) as (mid & _ & H). exact H.
Qed.

(** X17: a response with at least two coordinates and at least one
    instruction is accepted in both copies: the stored path has as many
    points as the response, the first is the start and the last the target's
    location, every point in between is the backend's own, the instructions
    are stored as returned, the status announces the route and the pending
    flag is cleared. *)
Theorem accepted_response_kept (env : Env) (s : State) (u : Point) (t : Elevator)
    (coords : list Point) (instructions : list string) :
  (2 <= List.length coords)%nat ->
  instructions <> [] ->
  let s' := render s (fetch_settle env u t
                        (Parsed {| path_coordinates := Some coords;
                                   step_by_step_instructions := Some instructions |})) in
  exists stored,
    path s' = Some stored
    /\ List.length stored = List.length coords
    /\ nth_error stored 0 = Some u
    /\ nth_error stored (List.length coords - 1) = Some (location t)
    /\ (forall i, (0 < i < List.length coords - 1)%nat ->
          nth_error stored i = nth_error coords i)
    /\ aiPathInstructions s' = Some instructions
    /\ gpsStatus s'
       = ("AI path to " ++ name t ++ " generated. Follow instructions.")%string
    /\ isFetchingAiPath s' = false.
Proof.
  intros Hlen Hins s'. subst s'.
  exists (validatedPath coords u t).
  assert (Hcond : ((2 <=? List.length coords)%nat && (0 <? List.length instructions)%nat)
                  = true).
  { apply andb_true_iff. split; [apply Nat.leb_le; exact Hlen |].
    apply Nat.ltb_lt. destruct instructions; [contradiction Hins; reflexivity |].
    simpl. lia. }
  assert (Hpath : try_body env u t
                    (Parsed {| path_coordinates := Some coords;
                               step_by_step_instructions := Some instructions |})
                  = Normal (accept coords instructions u t)).
  { unfold try_body. cbn [path_coordinates step_by_step_instructions].
    rewrite Hcond. destruct (revision env); reflexivity. }
  unfold fetch_settle. rewrite Hpath.
  split; [reflexivity |].
  split; [apply (validatedPath_length coords u t Hlen) |].
  split; [rewrite validatedPath_nth by exact Hlen;
          destruct (0 =? List.length coords - 1)%nat eqn:E;
          [apply Nat.eqb_eq in E; lia | reflexivity] |].
  split; [rewrite validatedPath_nth by exact Hlen; rewrite Nat.eqb_refl; reflexivity |].
  split; [| repeat split].
  intros i Hi. rewrite validatedPath_nth by exact Hlen.
  destruct (i =? List.length coords - 1)%nat eqn:E1; [apply Nat.eqb_eq in E1; lia |].
  destruct (i =? 0)%nat eqn:E0; [apply Nat.eqb_eq in E0; lia | reflexivity].
Qed.

Lemma accepted_response_kept_witness :
  exists stored,
    path (render idle (fetch_settle second_copy scenario_user E1 (Parsed drifted)))
    = Some stored
    /\ nth_error stored 0 = Some scenario_user
    /\ nth_error stored 1 = Some {| x := 400; y := 100 |}
    /\ nth_error stored 2 = Some (location E1)
    /\ aiPathInstructions
         (render idle (fetch_settle second_copy scenario_user E1 (Parsed drifted)))
       = Some ["Walk along the corridor."%string].
Proof.
  assert (Hlen : (2 <= List.length [ {| x := 90; y := 95 |}; {| x := 400; y := 100 |};
                                     {| x := 710; y := 490 |} ])%nat) by (simpl; lia).
  assert (Hne : ["Walk along the corridor."%string] <> []) by discriminate.
  destruct (accepted_response_kept second_copy idle scenario_user E1 _ _ Hlen Hne)
    as (stored & Hp & _ & H0 & Hlast & Hmid & Hi & _).
  exists stored.
  split; [exact Hp |]. split; [exact H0 |].
  split; [apply (Hmid 1%nat); simpl; lia |].
  split; [exact Hlast | exact Hi].
Defined.

(** X18: every completion of a path request leaves something to follow: a
    stored path of at least two points (which is what the map needs to draw
    it), a non-empty list of instructions and a clear pending flag, for every
    outcome of the backend and in both copies.  The same holds for the
    immediate fallback when no request can be made. *)
Theorem completion_leaves_usable_route (env : Env) (s : State) (u : Point)
    (t : Elevator) :
  (forall o,
     let s' := render s (fetch_settle env u t o) in
     exists p l, path s' = Some p /\ (2 <= List.length p)%nat
                 /\ aiPathInstructions s' = Some l /\ l <> []
                 /\ isFetchingAiPath s' = false)
  /\ (forall plan,
        issued (fetch_begin env u t plan) = [] ->
        let s' := render s (fetch_begin env u t plan) in
        path s' = Some [u; location t]
        /\ aiPathInstructions s' = Some ["AI pathfinding is currently unavailable."%string]
        /\ gpsStatus s'
           = "AI pathfinding unavailable (AI client or image missing). Showing straight line."%string).
Proof.
  split.
  - intros o s'. subst s'. unfold fetch_settle.
    destruct (try_body env u t o) as [acts | m] eqn:E.
    + unfold try_body in E.
      destruct o as [reason | text | aiResponse]; try discriminate E.
      destruct (revision env);
        destruct (path_coordinates aiResponse) as [coords |]; try discriminate E;
        destruct (step_by_step_instructions aiResponse) as [instructions |];
        try discriminate E;
        destruct ((2 <=? List.length coords)%nat && (0 <? List.length instructions)%nat)
          eqn:Hcond; try discriminate E;
        injection E as <-.
      * apply andb_true_iff in Hcond. destruct Hcond as [Hlen Hins].
        apply Nat.leb_le in Hlen. apply Nat.ltb_lt in Hins.
        exists (validatedPath coords u t), instructions.
        split; [reflexivity |].
        split; [rewrite (validatedPath_length coords u t Hlen); exact Hlen |].
        split; [reflexivity |]. split; [| reflexivity].
        intro H. subst instructions. simpl in Hins. lia.
      * apply andb_true_iff in Hcond. destruct Hcond as [Hlen Hins].
        apply Nat.leb_le in Hlen. apply Nat.ltb_lt in Hins.
        exists (validatedPath coords u t), instructions.
        split; [reflexivity |].
        split; [rewrite (validatedPath_length coords u t Hlen); exact Hlen |].
        split; [reflexivity |]. split; [| reflexivity].
        intro H. subst instructions. simpl in Hins. lia.
      * destruct instructions as [| line more].
        -- eexists. eexists. split; [reflexivity |]. split; [simpl; lia |].
           split; [reflexivity |]. split; [discriminate | reflexivity].
        -- eexists. eexists. split; [reflexivity |]. split; [simpl; lia |].
           split; [reflexivity |]. split; [discriminate | reflexivity].
    + eexists. eexists. split; [reflexivity |]. split; [simpl; lia |].
      split; [reflexivity |]. split; [| reflexivity].
      unfold catch_instructions. discriminate.
  - intros plan Hnone s'. subst s'. unfold fetch_begin in *.
    destruct (negb (ai env) || negb (truthy (imageUrl plan))); [| discriminate Hnone].
    repeat split.
Qed.

Lemma completion_leaves_usable_route_witness :
  (exists p l,
     path (render pending (fetch_settle first_copy scenario_user E1 (Parsed gave_up)))
     = Some p /\ (2 <= List.length p)%nat
     /\ aiPathInstructions
          (render pending (fetch_settle first_copy scenario_user E1 (Parsed gave_up)))
        = Some l /\ l <> [])
  /\ path (render idle (fetch_begin no_client scenario_user E1 scenario_plan))
     = Some [scenario_user; location E1].
Proof.
  destruct (completion_leaves_usable_route first_copy pending scenario_user E1)
    as [Hdone _].
  destruct (completion_leaves_usable_route no_client idle scenario_user E1)
    as [_ Hnone].
  split.
  - destruct (Hdone (Parsed gave_up)) as (p & l & Hp & Hlen & Hl & Hne & _).
    exists p, l. repeat split; assumption.
  - apply (Hnone scenario_plan). reflexivity.
Defined.

(** X19: the effect that keeps the nearest elevator and the fallback line
    calls only [setNearestElevator] and [setPath].  It never writes the path
    while a request is pending.  With a user location and a plan: when a
    target is selected it clears the nearest elevator, and draws the straight
    line to the target exactly when nothing is pending and no instructions are
    stored; when no target is selected it stores the nearest elevator of the
    plan, and with nothing pending and no instructions draws the line to it or,
    on a plan without elevators, clears the path.  Without a user location or
    plan it clears the nearest elevator and, unless a request is pending, the
    path. *)
Theorem nearestEffect_spec (s : State) :
  let acts := nearestEffect s in
  let s' := render s acts in
  (forall a, In a acts ->
     (exists v, a = setNearestElevator v) \/ (exists v, a = setPath v))
  /\ (isFetchingAiPath s = true -> path s' = path s)
  /\ (forall u plan sel,
        userLocation s = Some u -> currentFloorPlan s = Some plan ->
        selectedElevator s = Some sel ->
        nearestElevator s' = None
        /\ path s' = if negb (isFetchingAiPath s) && negb (is_some (aiPathInstructions s))
                     then Some [u; location sel] else path s)
  /\ (forall u plan,
        userLocation s = Some u -> currentFloorPlan s = Some plan ->
        selectedElevator s = None ->
        nearestElevator s' = findNearestElevator u (elevators plan)
        /\ path s' = match findNearestElevator u (elevators plan) with
                     | Some n =>
                         if negb (isFetchingAiPath s)
                            && negb (is_some (aiPathInstructions s))
                         then Some [u; location n] else path s
                     | None => if negb (isFetchingAiPath s) then None else path s
                     end)
  /\ (userLocation s = None \/ currentFloorPlan s = None ->
      nearestElevator s' = None
      /\ path s' = if negb (isFetchingAiPath s) then None else path s).
Proof.
  intros acts s'. subst s' acts. unfold nearestEffect.
  split; [| split; [| split; [| split]]].
  - intros a Ha.
    destruct (userLocation s), (currentFloorPlan s); try destruct (selectedElevator s);
      try destruct (findNearestElevator p (elevators f));
      destruct (isFetchingAiPath s); try destruct (is_some (aiPathInstructions s));
      cbn in Ha;
      repeat (destruct Ha as [Ha | Ha]; [subst a; eauto |]); contradiction Ha.
  - intro Hf. rewrite Hf.
    destruct (userLocation s), (currentFloorPlan s); try destruct (selectedElevator s);
      try destruct (findNearestElevator p (elevators f)); reflexivity.
  - intros u plan sel Hu Hp Hs. rewrite Hu, Hp, Hs.
    destruct (negb (isFetchingAiPath s) && negb (is_some (aiPathInstructions s)));
      split; reflexivity.
  - intros u plan Hu Hp Hs. rewrite Hu, Hp, Hs.
    destruct (findNearestElevator u (elevators plan));
      [destruct (negb (isFetchingAiPath s) && negb (is_some (aiPathInstructions s)))
      | destruct (negb (isFetchingAiPath s))];
      split; reflexivity.
  - intros [Hn | Hn]; rewrite Hn.
    + destruct (negb (isFetchingAiPath s)); split; reflexivity.
    + destruct (userLocation s); destruct (negb (isFetchingAiPath s)); split; reflexivity.
Qed.

Lemma nearestEffect_spec_witness :
  path (render pending (nearestEffect pending)) = path pending
  /\ nearestElevator (render navigating (nearestEffect navigating)) = None
  /\ path (render navigating_plain (nearestEffect navigating_plain))
     = Some [scenario_user; location E1].
Proof.
  destruct (nearestEffect_spec pending) as (_ & Hpend & _).
  destruct (nearestEffect_spec navigating) as (_ & _ & Hsel & _).
  destruct (nearestEffect_spec navigating_plain) as (_ & _ & Hplain & _).
  split; [apply Hpend; reflexivity |].
  split.
  - apply (Hsel scenario_user scenario_plan E1); reflexivity.
  - apply (Hplain scenario_user scenario_plan E1); reflexivity.
Defined.












(** * Properties of the plan upload and the elevator detection *)

Lemma string_of_uint_no_dash (d : Decimal.uint) : no_dash (NilEmpty.string_of_uint d).
Proof.
  induction d; cbn [NilEmpty.string_of_uint no_dash]; try exact I;
    (split; [discriminate | exact IHd]).
Qed.

Lemma decimal_no_dash (n : nat) : no_dash (decimal n).
Proof. apply string_of_uint_no_dash. Qed.

Lemma decimal_inj (n m : nat) : decimal n = decimal m -> n = m.
Proof.
  unfold decimal. intro H. apply Unsigned.to_uint_inj.
  assert (E : NilEmpty.uint_of_string (NilEmpty.string_of_uint (Nat.to_uint n))
              = NilEmpty.uint_of_string (NilEmpty.string_of_uint (Nat.to_uint m)))
    by (rewrite H; reflexivity).
  rewrite !NilEmpty.usu in E. injection E as E. exact E.
Qed.

Lemma append_cancel_l (p a b : string) :
  (p ++ a)%string = (p ++ b)%string -> a = b.
Proof.
  induction p as [| c p IH]; intro E; [exact E |].
  apply IH. unfold String.append in E; fold String.append in E.
  injection E as E. exact E.
Qed.

Lemma dash_split (a : string) :
  forall b c d : string,
    no_dash a -> no_dash b ->
    (a ++ "-" ++ c)%string = (b ++ "-" ++ d)%string -> a = b /\ c = d.
Proof.
  induction a as [| ch a IH]; intros b c d Ha Hb E; destruct b as [| ch' b].
  - cbn in E. injection E as E. split; [reflexivity | exact E].
  - cbn in E. injection E as E _. destruct Hb as [Hb _]. symmetry in E. contradiction.
  - cbn in E. injection E as E _. destruct Ha as [Ha _]. contradiction.
  - cbn in E. injection E as E1 E2. destruct Ha as [_ Ha]. destruct Hb as [_ Hb].
    destruct (IH b c d Ha Hb E2) as [-> ->]. subst ch'. split; reflexivity.
Qed.

Lemma detected_id_inj (now now' index index' : nat) (w h w' h' : R)
    (item item' : GeminiElevatorDetection) :
  id (detected_elevator now w h index item) = id (detected_elevator now' w' h' index' item')
  -> index = index'.
Proof.
  unfold detected_elevator. cbn [id]. intro E.
  assert (E' : (decimal now ++ "-" ++ decimal index)%string
               = (decimal now' ++ "-" ++ decimal index')%string).
  { exact (append_cancel_l _ _ _ E). }
  apply dash_split in E'; try apply decimal_no_dash.
  apply decimal_inj. apply E'.
Qed.

Lemma newElevators_from_index (clock : nat -> nat) (w h : R)
    (items : list GeminiElevatorDetection) :
  forall k e,
    In e (newElevators_from clock w h k items) ->
    exists i item, (k <= i)%nat /\ e = detected_elevator (clock i) w h i item.
Proof.
  induction items as [| item items IH]; intros k e Hin; [contradiction Hin |].
  cbn [newElevators_from] in Hin. destruct Hin as [<- | Hin].
  - exists k, item. split; [lia | reflexivity].
  - destruct (IH (S k) e Hin) as (i & item' & Hle & He).
    exists i, item'. split; [lia | exact He].
Qed.

Lemma newElevators_from_nodup (clock : nat -> nat) (w h : R)
    (items : list GeminiElevatorDetection) :
  forall k, NoDup (map id (newElevators_from clock w h k items)).
Proof.
  induction items as [| item items IH]; intro k; [constructor |].
  cbn [newElevators_from map]. constructor; [| apply IH].
  intro Hin. apply in_map_iff in Hin. destruct Hin as (e & Eid & He).
  destruct (newElevators_from_index clock w h items (S k) e He) as (i & item' & Hle & ->).
  apply detected_id_inj in Eid. lia.
Qed.

Lemma newElevators_from_nth (clock : nat -> nat) (w h : R)
    (items : list GeminiElevatorDetection) :
  forall k i,
    nth_error (newElevators_from clock w h k items) i
    = option_map (detected_elevator (clock (k + i)%nat) w h (k + i)) (nth_error items i).
Proof.
  induction items as [| item items IH]; intros k i.
  - destruct i; reflexivity.
  - destruct i as [| i]; cbn [newElevators_from nth_error].
    + rewrite Nat.add_0_r. reflexivity.
    + rewrite IH. replace (S k + i)%nat with (k + S i)%nat by lia. reflexivity.
Qed.

(** X22: the elevators built from a detection response: there is one per
    detected item, in the same order; the i-th one sits at the item's
    percentages of the image width and height, carries the item's description
    as its name, or "AI Detected Elevator i+1" when the description is empty,
    and the floor "N/A (AI)".  Percentages between 0 and 100 give a location
    inside the image; other percentages are not clamped.  The ids are
    pairwise distinct, whatever the clock reads. *)
Theorem newElevators_spec (clock : nat -> nat) (w h : R)
    (items : list GeminiElevatorDetection) :
  List.length (newElevators clock w h items) = List.length items
  /\ (forall i item,
        nth_error items i = Some item ->
        exists e,
          nth_error (newElevators clock w h items) i = Some e
          /\ location e = {| x := x_percent item / 100 * w; y := y_percent item / 100 * h |}
          /\ name e = (if truthy (description item) then description item
                       else ("AI Detected Elevator " ++ decimal (i + 1))%string)
          /\ floor e = "N/A (AI)"%string
          /\ (0 <= w -> 0 <= h ->
              0 <= x_percent item <= 100 -> 0 <= y_percent item <= 100 ->
              0 <= x (location e) <= w /\ 0 <= y (location e) <= h)
          /\ (0 < w -> 100 < x_percent item -> w < x (location e)))
  /\ NoDup (map id (newElevators clock w h items)).
Proof.
  unfold newElevators. split; [| split].
  - generalize 0%nat. induction items as [| item items IH]; intro k; [reflexivity |].
    cbn [newElevators_from List.length]. rewrite IH. reflexivity.
  - intros i item Hi. rewrite newElevators_from_nth, Hi. cbn [option_map Nat.add].
    eexists. split; [reflexivity |].
    cbn [location name floor detected_elevator x y].
    repeat split; nra.
  - apply newElevators_from_nodup.
Qed.

Lemma newElevators_spec_witness :
  exists e,
    nth_error (newElevators (fun _ => 17%nat) 800 600 two_detections) 1 = Some e
    /\ name e = "AI Detected Elevator 2"%string
    /\ 0 <= x (location e) <= 800 /\ 0 <= y (location e) <= 600.
Proof.
  destruct (newElevators_spec (fun _ => 17%nat) 800 600 two_detections)
    as (_ & Hnth & _).
  destruct (Hnth 1%nat {| x_percent := 80; y_percent := 65; description := "" |} eq_refl)
    as (e & He & _ & Hname & _ & Hin & _).
  exists e. split; [exact He |]. split; [exact Hname |].
  apply Hin; simpl; lra.
Defined.

Lemma find_unique_id (l : list Elevator) :
  forall e, NoDup (map id l) -> In e l ->
            find (fun e' => String.eqb (id e') (id e)) l = Some e.
Proof.
  induction l as [| a l IH]; intros e Hnd Hin; [contradiction Hin |].
  cbn [find]. inversion Hnd as [| ? ? Hnotin Hnd']; subst.
  destruct Hin as [-> | Hin].
  - rewrite String.eqb_refl. reflexivity.
  - destruct (String.eqb (id a) (id e)) eqn:E.
    + apply String.eqb_eq in E. exfalso. apply Hnotin. rewrite E.
      apply in_map. exact Hin.
    + apply IH; assumption.
Qed.

(** X23: when the elevators of the plan carry pairwise distinct ids, as those
    built from a detection response do, tapping the marker of an elevator
    selects that very elevator as the target (plan loaded, nothing pending). *)
Theorem elevator_tap_selects_tapped (env : Env) (s : State) (plan : FloorPlan)
    (e : Elevator) :
  currentFloorPlan s = Some plan ->
  isAnalyzingPlan s = false ->
  isFetchingAiPath s = false ->
  NoDup (map id (elevators plan)) ->
  In e (elevators plan) ->
  selectedElevator (render s (handleElevatorClick env s (id e))) = Some e.
Proof.
  intros Hplan Han Hf Hnd Hin.
  unfold handleElevatorClick. rewrite Hplan, Han, Hf. cbn [orb].
  rewrite (find_unique_id (elevators plan) e Hnd Hin).
  assert (Hlen : (List.length (elevators plan) =? 0)%nat = false).
  { destruct (elevators plan); [contradiction Hin | reflexivity]. }
  rewrite Hlen. cbn [orb].
  unfold stopGpsNavigation, fetch_begin.
  destruct (gpsWatchId s); destruct (userLocation s);
    destruct (negb (ai env) || negb (truthy (imageUrl plan))); reflexivity.
Qed.

Lemma elevator_tap_selects_tapped_witness :
  let found := newElevators (fun _ => 17%nat) 800 600 two_detections in
  let plan := custom_plan 17 "plan.png" "data:image/png;base64,AAAA" 800 600 found in
  let s := mkState (Some plan) None None initialAppStatus false false None None
             None None false false None None in
  selectedElevator (render s (handleElevatorClick first_copy s "ai-elevator-17-1"))
  = nth_error found 1.
Proof.
  intros found plan s.
  apply (elevator_tap_selects_tapped first_copy s plan
           (detected_elevator 17 800 600 1
              {| x_percent := 80; y_percent := 65; description := "" |})
           eq_refl eq_refl eq_refl).
  - apply newElevators_from_nodup.
  - right. left. reflexivity.
Defined.

Lemma render_plan_nav (s : State) (acts : list Action) :
  render_plan s (map nav acts) = render s acts.
Proof.
  revert s. induction acts as [| a acts IH]; intro s; [reflexivity |].
  cbn [map]. unfold render_plan, render in *. cbn [fold_left commit_plan]. apply IH.
Qed.

Lemma render_plan_app (s : State) (a b : list PlanAction) :
  render_plan s (a ++ b) = render_plan (render_plan s a) b.
Proof. unfold render_plan. apply fold_left_app. Qed.

Lemma or_default_nonzero (a b : R) : b <> 0 -> or_default a b <> 0.
Proof.
  intro Hb. unfold or_default, Reqb. destruct (Req_dec_T a 0); assumption.
Qed.

Lemma loading_dimensions_nonzero (s : State) :
  width (loading_dimensions s) <> 0 /\ height (loading_dimensions s) <> 0.
Proof.
  unfold loading_dimensions. destruct (currentFloorPlan s); cbn [width height];
    split; try apply or_default_nonzero; lra.
Qed.

Lemma upload_state (now : nat) (s : State) (f : File) :
  isAnalyzingPlan s = false ->
  render_plan s (handleFloorPlanUpload now s (Some f))
  = {| currentFloorPlan :=
         Some {| plan_id := ("custom-loading-" ++ decimal now)%string;
                 plan_name := ("Processing '" ++ file_name f ++ "'...")%string;
                 imageUrl := ""; elevators := [];
                 dimensions := loading_dimensions s |};
       userLocation := None; userGeoLocation := None;
       gpsStatus := ("AI is analyzing '" ++ file_name f ++ "'... Please wait.")%string;
       isGpsDerived := false; isAnalyzingPlan := true;
       nearestElevator := None; selectedElevator := None; path := None;
       aiPathInstructions := None; isFetchingAiPath := false;
       isNavigatingWithGps := false; targetElevatorGps := None;
       gpsWatchId := None |}.
Proof.
  intro Han. unfold handleFloorPlanUpload. rewrite Han.
  rewrite !render_plan_app, render_plan_nav.
  pose proof (reset_state (render_plan s [setIsAnalyzingPlan true])
                (Some ("Uploading '" ++ file_name f ++ "'...")%string)) as Hreset.
  assert (Hsame : resetAllLocationsAndSelections s
                    (Some ("Uploading '" ++ file_name f ++ "'...")%string)
                  = resetAllLocationsAndSelections
                      (render_plan s [setIsAnalyzingPlan true])
                      (Some ("Uploading '" ++ file_name f ++ "'...")%string))
    by reflexivity.
  rewrite Hsame, Hreset. reflexivity.
Qed.

(** X24: an upload is ignored while a plan is being analysed, and a change
    event without a file does nothing.  Otherwise the upload empties the
    whole navigation state, marks the analysis as running and installs a
    placeholder plan: no elevators, no image, and the dimensions of the
    previous plan with 800 x 600 standing in for a missing or zero side, so
    the placeholder never has a zero side.  Until the analysis ends, map taps
    and elevator taps do nothing and no location fix issues a path request. *)
Theorem upload_starts_clean (now : nat) (s : State) :
  (forall file, isAnalyzingPlan s = true -> handleFloorPlanUpload now s file = [])
  /\ handleFloorPlanUpload now s None = []
  /\ (forall f, isAnalyzingPlan s = false ->
        let s' := render_plan s (handleFloorPlanUpload now s (Some f)) in
        isAnalyzingPlan s' = true
        /\ userLocation s' = None /\ selectedElevator s' = None
        /\ nearestElevator s' = None /\ path s' = None
        /\ aiPathInstructions s' = None /\ isFetchingAiPath s' = false
        /\ isNavigatingWithGps s' = false /\ gpsWatchId s' = None
        /\ (exists plan,
              currentFloorPlan s' = Some plan
              /\ elevators plan = [] /\ imageUrl plan = ""%string
              /\ dimensions plan = loading_dimensions s
              /\ width (dimensions plan) <> 0 /\ height (dimensions plan) <> 0)
        /\ (forall env point, handleManualMapClick env s' point = [])
        /\ (forall env elevatorId, handleElevatorClick env s' elevatorId = [])
        /\ (forall env g msg, issued (processGpsLocation env s' g msg) = [])).
Proof.
  split; [| split].
  - intros file Han. unfold handleFloorPlanUpload. rewrite Han. reflexivity.
  - unfold handleFloorPlanUpload. destruct (isAnalyzingPlan s); reflexivity.
  - intros f Han s'. subst s'. rewrite (upload_state now s f Han).
    cbn [isAnalyzingPlan userLocation selectedElevator nearestElevator path
           aiPathInstructions isFetchingAiPath isNavigatingWithGps gpsWatchId
           currentFloorPlan].
    repeat (split; [reflexivity |]).
    split.
    { eexists. split; [reflexivity |]. cbn [elevators imageUrl dimensions].
      repeat (split; [reflexivity |]). apply loading_dimensions_nonzero. }
    split; [reflexivity |]. split; [reflexivity |].
    intros env g msg. unfold processGpsLocation, located.
    cbn [currentFloorPlan dimensions selectedElevator isFetchingAiPath negb elevators].
    destruct (Reqb (width (loading_dimensions s)) 0); [reflexivity |].
    destruct (mapGeoToPixel g FLOOR_PLAN_GEO_BOUNDS (loading_dimensions s));
      reflexivity.
Qed.

Lemma upload_starts_clean_witness :
  let s' := render_plan navigating
              (handleFloorPlanUpload 17 navigating
                 (Some {| file_name := "b.png"; file_type := "image/png" |})) in
  isAnalyzingPlan s' = true /\ userLocation s' = None /\ path s' = None
  /\ handleManualMapClick first_copy s' scenario_user = [].
Proof.
  intro s'.
  destruct (upload_starts_clean 17 navigating) as (_ & _ & Hfile).
  destruct (Hfile {| file_name := "b.png"; file_type := "image/png" |} eq_refl)
    as (Ha & Hu & _ & _ & Hp & _ & _ & _ & _ & _ & Htap & _).
  split; [exact Ha |]. split; [exact Hu |]. split; [exact Hp |]. apply Htap.
Defined.

(** X25: when the detection request completes, on every outcome the analysis
    flag is cleared and a plan with the uploaded image, its name and its
    natural dimensions is loaded; its elevators are those built from the
    response when it parses and none when the request or the parsing fails.
    The completion touches nothing else: user location, target, path,
    instructions, pending flag, navigation flag and watch handle stay.  When
    no backend client exists the analysis instead clears the navigation state
    and loads the plan without elevators at once.  A file or image that
    cannot be read leaves no plan loaded. *)
Theorem analysis_loads_plan (now : nat) (clock : nat -> nat) (imageUrl0 : string)
    (w h : R) (planName : string) (s : State) :
  (forall o,
     let s' := render_plan s (analyze_settle now clock imageUrl0 w h planName o) in
     isAnalyzingPlan s' = false
     /\ currentFloorPlan s'
        = Some (custom_plan now planName imageUrl0 w h
                  match o with
                  | Detected items => newElevators clock w h items
                  | _ => []
                  end)
     /\ userLocation s' = userLocation s
     /\ selectedElevator s' = selectedElevator s
     /\ nearestElevator s' = nearestElevator s
     /\ path s' = path s
     /\ aiPathInstructions s' = aiPathInstructions s
     /\ isFetchingAiPath s' = isFetchingAiPath s
     /\ isNavigatingWithGps s' = isNavigatingWithGps s
     /\ gpsWatchId s' = gpsWatchId s)
  /\ (forall env closure,
        ai env = false ->
        let s' := render_plan s
                    (analyze_begin env closure now imageUrl0 w h planName) in
        isAnalyzingPlan s' = false
        /\ currentFloorPlan s' = Some (custom_plan now planName imageUrl0 w h [])
        /\ userLocation s' = None /\ selectedElevator s' = None /\ path s' = None
        /\ isFetchingAiPath s' = false /\ isNavigatingWithGps s' = false)
  /\ (forall env closure,
        ai env = true ->
        analyze_begin env closure now imageUrl0 w h planName
        = [detectElevators imageUrl0])
  /\ (forall message,
        let s' := render_plan s (upload_failed message) in
        currentFloorPlan s' = None /\ isAnalyzingPlan s' = false
        /\ gpsStatus s' = message).
Proof.
  split; [| split; [| split]].
  - intros o s'. subst s'. destruct o; repeat split.
  - intros env closure Hai s'. subst s'. unfold analyze_begin. rewrite Hai.
    cbn [negb]. rewrite render_plan_app, render_plan_nav.
    unfold resetAllLocationsAndSelections, stopGpsNavigation.
    destruct (gpsWatchId closure); repeat split.
  - intros env closure Hai. unfold analyze_begin. rewrite Hai. reflexivity.
  - intros message s'. subst s'. repeat split.
Qed.

Lemma analysis_loads_plan_witness :
  currentFloorPlan
    (render_plan idle
       (analyze_begin no_client navigating 17 "data:image/png;base64,AAAA" 800 600 "b.png"))
  = Some (custom_plan 17 "b.png" "data:image/png;base64,AAAA" 800 600 [])
  /\ analyze_begin first_copy navigating 17 "data:image/png;base64,AAAA" 800 600 "b.png"
     = [detectElevators "data:image/png;base64,AAAA"].
Proof.
  destruct (analysis_loads_plan 17 (fun _ => 17%nat) "data:image/png;base64,AAAA"
              800 600 "b.png" idle) as (_ & Hnone & Hsome & _).
  split.
  - apply (Hnone no_client navigating eq_refl).
  - apply (Hsome first_copy navigating eq_refl).
Defined.

(** * Properties of the map click *)

Lemma tap_stores_point (env : Env) (s : State) (plan : FloorPlan) (point : Point) :
  currentFloorPlan s = Some plan ->
  isAnalyzingPlan s = false ->
  isFetchingAiPath s = false ->
  userLocation (render s (handleManualMapClick env s point)) = Some point.
Proof.
  intros Hplan Han Hf.
  unfold handleManualMapClick, stopGpsNavigation, fetch_begin.
  rewrite Hplan, Han, Hf. cbn [orb].
  destruct (gpsWatchId s); destruct (findNearestElevator point (elevators plan));
    try destruct (negb (ai env) || negb (truthy (imageUrl plan))); reflexivity.
Qed.

(** X26: a click on the map is turned into the offset from the corner of the
    displayed plan, clamped to the image: the point handed on always lies in
    [0, width] x [0, height], is the offset itself when that lies inside, and
    sits on the nearest edge otherwise.  So the user location stored by a map
    tap (plan loaded, nothing pending) is always a point of the image. *)
Theorem map_click_inside_image (plan : FloorPlan) (clientX clientY rectLeft rectTop : R) :
  0 <= width (dimensions plan) -> 0 <= height (dimensions plan) ->
  let p := handleMapClick plan clientX clientY rectLeft rectTop in
  (0 <= x p <= width (dimensions plan) /\ 0 <= y p <= height (dimensions plan))
  /\ (0 <= clientX - rectLeft <= width (dimensions plan) -> x p = clientX - rectLeft)
  /\ (0 <= clientY - rectTop <= height (dimensions plan) -> y p = clientY - rectTop)
  /\ (clientX - rectLeft < 0 -> x p = 0)
  /\ (width (dimensions plan) < clientX - rectLeft -> x p = width (dimensions plan))
  /\ (clientY - rectTop < 0 -> y p = 0)
  /\ (height (dimensions plan) < clientY - rectTop -> y p = height (dimensions plan))
  /\ (forall env s,
        currentFloorPlan s = Some plan -> isAnalyzingPlan s = false ->
        isFetchingAiPath s = false ->
        userLocation (render s (handleManualMapClick env s p)) = Some p).
Proof.
  intros Hw Hh p. subst p. unfold handleMapClick. cbn [x y].
  split; [split; apply clamp_range; assumption |].
  split; [intros [H0 H1]; rewrite Rmin_left by lra; apply Rmax_right; lra |].
  split; [intros [H0 H1]; rewrite Rmin_left by lra; apply Rmax_right; lra |].
  split; [intro H; rewrite Rmin_left by lra; apply Rmax_left; lra |].
  split; [intro H; rewrite Rmin_right by lra; apply Rmax_right; lra |].
  split; [intro H; rewrite Rmin_left by lra; apply Rmax_left; lra |].
  split; [intro H; rewrite Rmin_right by lra; apply Rmax_right; lra |].
  intros env s Hplan Han Hf. apply (tap_stores_point env s plan _ Hplan Han Hf).
Qed.

Lemma map_click_inside_image_witness :
  x (handleMapClick scenario_plan 950 320 20 20) = 800
  /\ y (handleMapClick scenario_plan 950 320 20 20) = 300.
Proof.
  assert (Hw : 0 <= width (dimensions scenario_plan)) by (simpl; lra).
  assert (Hh : 0 <= height (dimensions scenario_plan)) by (simpl; lra).
  destruct (map_click_inside_image scenario_plan 950 320 20 20 Hw Hh)
    as (_ & _ & Hy & _ & Hx & _).
  split.
  - rewrite Hx; simpl; lra.
  - rewrite Hy; simpl; lra.
Defined.

(** * Properties of the remote's sketch *)

Lemma sketch_loop_next (k : nat) (r : Sketch.Reading) :
  (k < 25)%nat ->
  snd (Sketch.loop (1500 - 40 * Z.of_nat k) r)
  = if Sketch.near r then (1500 - 40 * Z.of_nat (S k mod 25))%Z
    else (1500 - 40 * Z.of_nat k)%Z.
Proof.
  intro Hk. unfold Sketch.loop. cbn [snd].
  destruct (Sketch.near r); cbn [snd]; [| reflexivity].
  destruct (Nat.eq_dec k 24) as [-> | Hne].
  - reflexivity.
  - rewrite Nat.mod_small by lia.
    destruct (1500 - 40 * Z.of_nat k - 40 =? 500)%Z eqn:E.
    + apply Z.eqb_eq in E. lia.
    + lia.
Qed.

Lemma sketch_passes_count (rs : list Sketch.Reading) :
  forall k, (k < 25)%nat ->
    snd (Sketch.passes (1500 - 40 * Z.of_nat k) rs)
    = (1500 - 40 * Z.of_nat ((k + List.length (filter Sketch.near rs)) mod 25))%Z.
Proof.
  induction rs as [| r rs IH]; intros k Hk.
  - cbn [Sketch.passes snd filter List.length].
    rewrite Nat.add_0_r, Nat.mod_small by lia. reflexivity.
  - cbn [Sketch.passes snd filter]. rewrite (sketch_loop_next k r Hk).
    destruct (Sketch.near r).
    + rewrite IH by (apply Nat.mod_upper_bound; lia).
      cbn [List.length]. rewrite Nat.Div0.add_mod_idemp_l.
      replace (S k + List.length (filter Sketch.near rs))%nat
        with (k + S (List.length (filter Sketch.near rs)))%nat by lia.
      reflexivity.
    + apply IH. exact Hk.
Qed.

Lemma sketch_tones_in_range (rs : list Sketch.Reading) :
  forall k pin f, (k < 25)%nat ->
    In (Sketch.tone pin f) (fst (Sketch.passes (1500 - 40 * Z.of_nat k) rs)) ->
    pin = Sketch.ultrasonicBuzzPin /\ (540 <= f <= 1500)%Z.
Proof.
  induction rs as [| r rs IH]; intros k pin f Hk Hin; [contradiction Hin |].
  cbn [Sketch.passes fst] in Hin. apply in_app_or in Hin. destruct Hin as [Hin | Hin].
  - assert (Hcb : (540 <= 1500 - 40 * Z.of_nat k <= 1500)%Z) by lia.
    remember (1500 - 40 * Z.of_nat k)%Z as cb eqn:Ecb. clear Ecb.
    unfold Sketch.loop in Hin. cbn [fst] in Hin.
    destruct (Sketch.buttonState r), (Sketch.near r), (Sketch.isConnected r);
      cbn [app fst In] in Hin;
      repeat (destruct Hin as [Hin | Hin]; try discriminate Hin);
      try contradiction Hin;
      injection Hin as <- <-; (split; [reflexivity | exact Hcb]).
  - rewrite (sketch_loop_next k r Hk) in Hin.
    destruct (Sketch.near r).
    + apply (IH (S k mod 25)%nat pin f); [apply Nat.mod_upper_bound; lia | exact Hin].
    + apply (IH k pin f Hk Hin).
Qed.

(** X27: the pitch of the obstacle buzzer.  Starting from 1500, after any
    sequence of passes of [loop] the pitch variable is 1500 minus 40 times the
    number of near readings so far modulo 25: it steps down by 40 on every
    near reading, jumps back to 1500 on the twenty-fifth, and is left alone by
    far readings.  It therefore stays between 540 and 1500 for ever, and every
    tone the sketch plays is on the buzzer pin with such a frequency. *)
Theorem sketch_pitch_cycle (rs : list Sketch.Reading) :
  let result := Sketch.passes Sketch.initialBuzz rs in
  snd result
  = (1500 - 40 * Z.of_nat (List.length (filter Sketch.near rs) mod 25))%Z
  /\ (540 <= snd result <= 1500)%Z
  /\ (forall pin f, In (Sketch.tone pin f) (fst result) ->
        pin = Sketch.ultrasonicBuzzPin /\ (540 <= f <= 1500)%Z).
Proof.
  intro result. subst result.
  change Sketch.initialBuzz with (1500 - 40 * Z.of_nat 0)%Z.
  assert (H0 : (0 < 25)%nat) by lia.
  split; [apply (sketch_passes_count rs 0%nat H0) |].
  split.
  - rewrite (sketch_passes_count rs 0%nat H0). cbn [Nat.add].
    pose proof (Nat.mod_upper_bound (List.length (filter Sketch.near rs)) 25) as Hm.
    lia.
  - intros pin f. apply (sketch_tones_in_range rs 0%nat pin f H0).
Qed.

(** X28: one pass of [loop].  The LED pin is only ever written LOW, whatever
    the button reads.  An echo of at most 2352 microseconds (about 40 cm,
    which includes the reading 0 of a missing echo) sounds the buzzer at the
    current pitch, a longer one silences it.  With a host connected the
    button is reported pressed exactly when the pin reads LOW and released
    otherwise, and one report is sent; without a host nothing is reported. *)
Theorem sketch_loop_spec (currentBuzz : Z) (r : Sketch.Reading) :
  let calls := fst (Sketch.loop currentBuzz r) in
  ~ In (Sketch.digitalWrite Sketch.buttonLedPin Sketch.HIGH) calls
  /\ In (Sketch.digitalWrite Sketch.buttonLedPin Sketch.LOW) calls
  /\ ((0 <= Sketch.timeTaken r)%Z ->
      (Sketch.near r = true <-> (Sketch.timeTaken r <= 2352)%Z))
  /\ (Sketch.near r = true ->
      In (Sketch.tone Sketch.ultrasonicBuzzPin currentBuzz) calls
      /\ ~ In (Sketch.noTone Sketch.ultrasonicBuzzPin) calls)
  /\ (Sketch.near r = false ->
      In (Sketch.noTone Sketch.ultrasonicBuzzPin) calls
      /\ (forall pin f, ~ In (Sketch.tone pin f) calls)
      /\ snd (Sketch.loop currentBuzz r) = currentBuzz)
  /\ (In (Sketch.press Sketch.X_BUTTON) calls
      <-> Sketch.isConnected r = true /\ Sketch.buttonState r = Sketch.LOW)
  /\ (In (Sketch.release Sketch.X_BUTTON) calls
      <-> Sketch.isConnected r = true /\ Sketch.buttonState r = Sketch.HIGH)
  /\ (In Sketch.sendReport calls <-> Sketch.isConnected r = true).
Proof.
  intro calls. subst calls.
  split; [| split; [| split]].
  - unfold Sketch.loop. cbn [fst].
    destruct (Sketch.buttonState r), (Sketch.near r), (Sketch.isConnected r);
      cbn; intro H; repeat (destruct H as [H | H]; try discriminate H); exact H.
  - unfold Sketch.loop. cbn [fst]. destruct (Sketch.buttonState r); left; reflexivity.
  - intro Hpos. unfold Sketch.near, Sketch.distance.
    destruct (Rle_dec (IZR (Sketch.timeTaken r) * (34 / 1000) / 2) 40) as [Hle | Hgt];
      split; intro H; try reflexivity; try discriminate H.
    + destruct (Z_le_gt_dec (Sketch.timeTaken r) 2352) as [Hz | Hz]; [exact Hz |].
      assert (Hr : IZR 2353 <= IZR (Sketch.timeTaken r)) by (apply IZR_le; lia).
      lra.
    + exfalso. apply Hgt.
      assert (Hr : IZR (Sketch.timeTaken r) <= IZR 2352) by (apply IZR_le; exact H).
      lra.
  - unfold Sketch.loop. cbn [fst snd].
    destruct (Sketch.buttonState r), (Sketch.near r), (Sketch.isConnected r);
      cbn [app fst snd In];
      repeat match goal with
             | |- _ /\ _ => split
             | |- _ <-> _ => split
             | |- _ -> _ => intro
             | |- forall _, _ => intro
             | |- ~ _ => intro
             end;
      try discriminate;
      try reflexivity;
      try (intuition congruence).
Qed.

Lemma sketch_loop_spec_witness :
  let r := Sketch.mkReading Sketch.LOW 0 true in
  Sketch.near r = true
  /\ In (Sketch.tone Sketch.ultrasonicBuzzPin 1500) (fst (Sketch.loop 1500 r))
  /\ In (Sketch.press Sketch.X_BUTTON) (fst (Sketch.loop 1500 r)).
Proof.
  intro r.
  destruct (sketch_loop_spec 1500 r) as (_ & _ & Hnear & Htone & _ & Hpress & _).
  assert (Hn : Sketch.near r = true).
  { apply Hnear; simpl; lia. }
  split; [exact Hn |].
  split; [apply (Htone Hn) |].
  apply Hpress. split; reflexivity.
Defined.
